(** * Steam storefront extractor ([extractor.py]): model and properties

    A shallow embedding of the batch utility that turns storefront
    product URLs into one JSON artifact per product.  The four stages
    ([extract_app_id], [fetch_steam_data], [build_payload], [save_json])
    and the per-item driver [process_url] are transcribed from the
    Python source.

    - Values are the JSON values of Python ([pyval]); a [str] is a list
      of code points, a [dict] an association list in insertion order.
    - A call returns or raises ([result]); statements that print or
      write also thread the [world] (output files and console) and keep
      what was done before a [raise] ([M]).
    - The storefront API, the storage and [float.__repr__] are the
      environment [env] of a run.  [requests.get] with
      [raise_for_status] is one observation.  The stages are first
      written for a console that takes every line and a storage that,
      once [open(path, "w")] succeeded, takes the whole text; the
      drivers [process_url_io], [run_batch_io] and [main] take the
      [faults] as well: a [print] that raises, a write that stops
      part-way.
    - [os.path.join] is the POSIX one. *)

From Stdlib Require Import Strings.String Strings.Ascii.
From Stdlib Require Import ZArith NArith Bool Lia.
From Stdlib Require Import Numbers.DecimalString Numbers.DecimalZ Numbers.DecimalPos.
From Stdlib Require Import Floats.PrimFloat.
From stdpp Require Import base option list gmap.

Set Warnings "-register-all".

(** ** Python strings

    A Python [str] is a sequence of Unicode code points.  Literals of
    the source are ASCII and are written with [str "..."]. *)

Abbreviation codepoint := N.
Abbreviation pystr := (list N).

Definition str (s : string) : pystr :=
  List.map N_of_ascii (list_ascii_of_string s).
Arguments str s%_string : simpl never.

(** Membership in a table of inclusive code point ranges. *)
Definition in_ranges (tbl : list (N * N)) (c : codepoint) : bool :=
  existsb (fun r => (fst r <=? c)%N && (c <=? snd r)%N) tbl.

(** The class [\d] of a [str] pattern: the code points of general
    category Nd (Unicode 14.0.0, the table of CPython 3.11). *)
Definition decimal_ranges : list (N * N) :=
  [ (48, 57); (1632, 1641); (1776, 1785); (1984, 1993); (2406, 2415);
    (2534, 2543); (2662, 2671); (2790, 2799); (2918, 2927); (3046, 3055);
    (3174, 3183); (3302, 3311); (3430, 3439); (3558, 3567); (3664, 3673);
    (3792, 3801); (3872, 3881); (4160, 4169); (4240, 4249); (6112, 6121);
    (6160, 6169); (6470, 6479); (6608, 6617); (6784, 6793); (6800, 6809);
    (6992, 7001); (7088, 7097); (7232, 7241); (7248, 7257); (42528, 42537);
    (43216, 43225); (43264, 43273); (43472, 43481); (43504, 43513);
    (43600, 43609); (44016, 44025); (65296, 65305); (66720, 66729);
    (68912, 68921); (69734, 69743); (69872, 69881); (69942, 69951);
    (70096, 70105); (70384, 70393); (70736, 70745); (70864, 70873);
    (71248, 71257); (71360, 71369); (71472, 71481); (71904, 71913);
    (72016, 72025); (72784, 72793); (73040, 73049); (73120, 73129);
    (92768, 92777); (92864, 92873); (93008, 93017); (120782, 120831);
    (123200, 123209); (123632, 123641); (125264, 125273);
    (130032, 130041) ]%N.

Definition isdecimal : codepoint -> bool := in_ranges decimal_ranges.

(** The characters removed by [str.strip()] without argument:
    the code points for which [str.isspace] holds. *)
Definition space_ranges : list (N * N) :=
  [ (9, 13); (28, 32); (133, 133); (160, 160); (5760, 5760); (8192, 8202);
    (8232, 8233); (8239, 8239); (8287, 8287); (12288, 12288) ]%N.

Definition isspace : codepoint -> bool := in_ranges space_ranges.

Fixpoint take_while {A} (p : A -> bool) (l : list A) : list A :=
  match l with
  | [] => []
  | x :: l' => if p x then x :: take_while p l' else []
  end.

Fixpoint drop_while {A} (p : A -> bool) (l : list A) : list A :=
  match l with
  | [] => []
  | x :: l' => if p x then drop_while p l' else l
  end.

(** [s.strip()]: leading and trailing whitespace removed. *)
Definition py_strip (s : pystr) : pystr :=
  rev (drop_while isspace (rev (drop_while isspace s))).

(** ** Python values

    The values that [response.json()] can produce, which are also the
    values a payload is made of.  A [dict] keeps insertion order and
    its keys are strings; lookups take the first binding of a key. *)

Inductive pyval : Type :=
| PNone
| PBool (b : bool)
| PInt (z : Z)
| PFloat (f : float)
| PStr (s : pystr)
| PList (l : list pyval)
| PDict (d : list (pystr * pyval)).

(** ** Exceptions *)

(** The messages [SteamExtractorError] is raised with. *)
Inductive steam_msg : Type :=
| MsgEmptyOrNotString          (* "URL is empty or not a string" *)
| MsgInvalidProductURL         (* "Invalid Steam product URL" *)
| MsgTimedOut                  (* "Steam API request timed out" *)
| MsgNetworkError (e : pystr)  (* f"Network error: {e}" *)
| MsgInvalidJSON               (* "Invalid JSON received from Steam" *)
| MsgMissingAppId              (* "Steam API response missing app ID" *)
| MsgSuccessFalse              (* "Steam API returned success=false" *)
| MsgWriteFailed (e : pystr)   (* f"Failed to write JSON file: {e}" *)
| MsgInputNotFound (file_path : pystr).  (* f"Input file not found: {file_path}" *)

(** The exceptions of the run; every one is an instance of
    [Exception]. *)
Inductive exn : Type :=
| SteamExtractorError (m : steam_msg)
| TypeError
| AttributeError
| KeyError (k : pystr)
| RecursionError
| UnicodeEncodeError
| UnicodeDecodeError
| OSError (msg : pystr).

(** The outcome of evaluating a Python expression or call. *)
Inductive result (A : Type) : Type :=
| Return (a : A)
| Raise (e : exn).
Arguments Return {A} a.
Arguments Raise {A} e.

#[global] Instance result_ret : MRet result := @Return.
#[global] Instance result_bind : MBind result := fun A B f r =>
  match r with
  | Return a => f a
  | Raise e => Raise e
  end.

(** ** Stage 1: identifier extractor *)

(** [s] starts with [p]: the rest of [s] after [p]. *)
Fixpoint after_prefix (p s : pystr) : option pystr :=
  match p, s with
  | [], _ => Some s
  | a :: p', b :: s' => if (a =? b)%N then after_prefix p' s' else None
  | _ :: _, [] => None
  end.

(** A match of [/app/(\d+)] that starts at the head of [s]: group 1.
    [\d+] is greedy and nothing follows it in the pattern, so group 1
    is the longest run of decimal digits after [/app/]. *)
Definition match_here (s : pystr) : option pystr :=
  match after_prefix (str "/app/") s with
  | Some rest =>
      match take_while isdecimal rest with
      | [] => None
      | ds => Some ds
      end
  | None => None
  end.

(** [re.search(r"/app/(\d+)", url)], reduced to [match.group(1)]:
    the start positions are tried from left to right. *)
Fixpoint re_search (s : pystr) : option pystr :=
  match match_here s with
  | Some ds => Some ds
  | None =>
      match s with
      | [] => None
      | _ :: s' => re_search s'
      end
  end.

Definition extract_app_id (url : pyval) : result pystr :=
  match url with
  | PStr u =>
      match py_strip u with
      | [] => Raise (SteamExtractorError MsgEmptyOrNotString)
      | _ :: _ =>
          match re_search u with
          | None => Raise (SteamExtractorError MsgInvalidProductURL)
          | Some ds => Return ds
          end
      end
  | _ => Raise (SteamExtractorError MsgEmptyOrNotString)
  end.

(** ** Python operations on values *)

(** [bool(v)] *)
Definition truthy (v : pyval) : bool :=
  match v with
  | PNone => false
  | PBool b => b
  | PInt z => negb (z =? 0)%Z
  | PFloat f => negb (PrimFloat.eqb f PrimFloat.zero)
  | PStr s => match s with [] => false | _ => true end
  | PList l => match l with [] => false | _ => true end
  | PDict d => match d with [] => false | _ => true end
  end.

(** [n in h] for two strings: substring test. *)
Fixpoint is_substring (n h : pystr) : bool :=
  match after_prefix n h with
  | Some _ => true
  | None =>
      match h with
      | [] => false
      | _ :: h' => is_substring n h'
      end
  end.

(** [d[k]] for a dict and [d.get(k)], as an option. *)
Fixpoint dict_lookup (k : pystr) (d : list (pystr * pyval)) : option pyval :=
  match d with
  | [] => None
  | (k', v) :: d' => if decide (k = k') then Some v else dict_lookup k d'
  end.

(** [x == k] for a string [k]: only an equal string is equal to it. *)
Definition eq_str (k : pystr) (x : pyval) : bool :=
  match x with
  | PStr t => bool_decide (t = k)
  | _ => false
  end.

(** [k in c] for a string [k]. *)
Definition str_in (k : pystr) (c : pyval) : result bool :=
  match c with
  | PStr h => Return (is_substring k h)
  | PList l => Return (existsb (eq_str k) l)
  | PDict d => Return (bool_decide (is_Some (dict_lookup k d)))
  | _ => Raise TypeError    (* argument of type ... is not iterable *)
  end.

(** [c[k]] for a string [k]. *)
Definition py_getitem (c : pyval) (k : pystr) : result pyval :=
  match c with
  | PDict d =>
      match dict_lookup k d with
      | Some v => Return v
      | None => Raise (KeyError k)
      end
  | _ => Raise TypeError    (* indices must be integers / not subscriptable *)
  end.

Definition default_or {A} (o : option A) (d : A) : A :=
  match o with
  | Some a => a
  | None => d
  end.

(** [c.get(k, default)]: only a dict has the method. *)
Definition py_get (c : pyval) (k : pystr) (default : pyval) : result pyval :=
  match c with
  | PDict d => Return (default_or (dict_lookup k d) default)
  | _ => Raise AttributeError
  end.

(** The items [for s in c] runs over. *)
Definition py_iter (c : pyval) : result (list pyval) :=
  match c with
  | PList l => Return l
  | PStr s => Return (List.map (fun ch => PStr [ch]) s)
  | PDict d => Return (List.map (fun kv => PStr (fst kv)) d)
  | _ => Raise TypeError    (* object is not iterable *)
  end.

(** [len(c)] *)
Definition py_len (c : pyval) : result Z :=
  match c with
  | PList l => Return (Z.of_nat (length l))
  | PStr s => Return (Z.of_nat (length s))
  | PDict d => Return (Z.of_nat (length d))
  | _ => Raise TypeError
  end.

(** [try: body except TypeError: handler] for an expression. *)
Definition except_TypeError {A} (body : result A) (handler : result A) : result A :=
  match body with
  | Raise TypeError => handler
  | r => r
  end.

(** ** The environment of a run

    What the program observes of the outside world: the storefront API,
    the storage behind the output directory, and the interpreter's
    [float.__repr__]. *)

(** Lines 31-32 taken together: [requests.get(api_url, timeout=10)]
    followed by [response.raise_for_status()], then the outcome of
    [response.json()] ([None]: the body is not JSON, [ValueError]). *)
Inductive http_outcome : Type :=
| HttpTimeout                         (* raises [Timeout] *)
| HttpRequestException (e : pystr)    (* raises another [RequestException] *)
| HttpResponse (body : option pyval)
| HttpRaises (e : exn).               (* raises what no handler of the function
                                         catches: [RecursionError] of
                                         [response.json()] on a deeply nested body *)

Record env : Type := {
  http_get : pystr -> http_outcome;       (* by request URL *)
  open_error : pystr -> option pystr;     (* [OSError] of [open(path, "w")], if any *)
  float_repr : float -> pystr             (* [float.__repr__] of a finite float *)
}.

(** ** Stage 2: remote fetcher *)

Definition api_url (app_id : pystr) : pystr :=
  str "https://store.steampowered.com/api/appdetails?appids=" ++ app_id.

(** Lines 43-49 of [fetch_steam_data]: the envelope check on the parsed
    body [data]. *)
Definition unwrap_envelope (app_id : pystr) (data : pyval) : result pyval :=
  present ← str_in app_id data;
  if negb present then Raise (SteamExtractorError MsgMissingAppId) else
  envelope ← py_getitem data app_id;
  success ← py_get envelope (str "success") PNone;
  if negb (truthy success) then Raise (SteamExtractorError MsgSuccessFalse) else
  envelope ← py_getitem data app_id;
  py_getitem envelope (str "data").

Definition fetch_steam_data (E : env) (app_id : pystr) : result pyval :=
  match http_get E (api_url app_id) with
  | HttpTimeout => Raise (SteamExtractorError MsgTimedOut)
  | HttpRequestException e => Raise (SteamExtractorError (MsgNetworkError e))
  | HttpResponse None => Raise (SteamExtractorError MsgInvalidJSON)
  | HttpResponse (Some data) => unwrap_envelope app_id data
  | HttpRaises e => Raise e
  end.

(** ** Stage 3: payload builder *)

(** [[s["path_full"] for s in items if "path_full" in s]] *)
Fixpoint path_full_of (items : list pyval) : result (list pyval) :=
  match items with
  | [] => Return []
  | s :: rest =>
      keep ← str_in (str "path_full") s;
      if keep : bool then
        v ← py_getitem s (str "path_full");
        vs ← path_full_of rest;
        Return (v :: vs)
      else path_full_of rest
  end.

Definition build_payload (app_id url game : pyval) : result pyval :=
  screenshots ←
    except_TypeError
      (field ← py_get game (str "screenshots") (PList []);
       items ← py_iter field;
       path_full_of items)
      (Return []);
  name ← py_get game (str "name") (PStr (str "Unknown"));
  header ← py_get game (str "header_image") PNone;
  Return (PDict [ (str "app_id", app_id);
                  (str "name", name);
                  (str "source", url);
                  (str "images",
                   PDict [ (str "header", header);
                           (str "screenshots", PList screenshots) ]) ]).

(** The record of the examples: name, header image, and three
    screenshots entries of which the second has no full-size path. *)
Definition game_x : pyval :=
  PDict [ (str "name", PStr (str "Game X"));
          (str "header_image", PStr (str "http://h.jpg"));
          (str "screenshots",
           PList [ PDict [ (str "path_full", PStr (str "http://s1.jpg")) ];
                   PDict [ (str "id", PInt 2) ];
                   PDict [ (str "path_full", PStr (str "http://s3.jpg")) ] ]) ].

(** ** Stage 4: persister *)

(** *** [json.dump(payload, f, indent=2)]

    With [indent] given the encoder is the pure Python one; the item
    separator is [","], the key separator [": "], [ensure_ascii] is on
    and key order is the dict's own. *)

Definition hex_digit (d : N) : codepoint :=
  (if d <? 10 then 48 + d else 87 + d)%N.

(** ['{0:04x}'.format(n)] for [n < 0x10000] *)
Definition hex4 (n : N) : pystr :=
  [ hex_digit (n / 4096 mod 16); hex_digit (n / 256 mod 16);
    hex_digit (n / 16 mod 16); hex_digit (n mod 16) ]%N.

Definition backslash_u (n : N) : pystr := 92%N :: 117%N :: hex4 n.

(** The replacement of one character by [py_encode_basestring_ascii]. *)
Definition escape_char (c : codepoint) : pystr :=
  (if c =? 34 then [92; 34]              (* quote *)
   else if c =? 92 then [92; 92]         (* backslash *)
   else if c =? 10 then [92; 110]        (* \n *)
   else if c =? 13 then [92; 114]        (* \r *)
   else if c =? 9 then [92; 116]         (* \t *)
   else if c =? 12 then [92; 102]        (* \f *)
   else if c =? 8 then [92; 98]          (* \b *)
   else if (32 <=? c) && (c <=? 126) then [c]
   else if c <? 65536 then backslash_u c
   else
     let n := c - 65536 in
     backslash_u (N.lor 55296 (N.land (N.shiftr n 10) 1023))
       ++ backslash_u (N.lor 56320 (N.land n 1023)))%N.

Definition encode_str (s : pystr) : pystr :=
  34%N :: flat_map escape_char s ++ [34%N].

(** [int.__repr__] *)
Definition int_repr (z : Z) : pystr := str (NilZero.string_of_int (Z.to_int z)).

(** [floatstr] of the encoder ([allow_nan] is on). *)
Definition encode_float (E : env) (f : float) : pystr :=
  if negb (PrimFloat.eqb f f) then str "NaN"
  else if PrimFloat.eqb f PrimFloat.infinity then str "Infinity"
  else if PrimFloat.eqb f PrimFloat.neg_infinity then str "-Infinity"
  else float_repr E f.

(** ['\n' + ' ' * (2 * level)] *)
Definition newline_indent (level : nat) : pystr :=
  10%N :: repeat 32%N (2 * level).

Fixpoint join (sep : pystr) (chunks : list pystr) : pystr :=
  match chunks with
  | [] => []
  | [c] => c
  | c :: cs => c ++ sep ++ join sep cs
  end.

(** A list or dict whose encoded items are [items], at nesting depth
    [level]. *)
Definition encode_block (opening closing : pystr) (level : nat)
    (items : list pystr) : pystr :=
  match items with
  | [] => opening ++ closing
  | _ :: _ =>
      opening ++ newline_indent (S level)
        ++ join (str "," ++ newline_indent (S level)) items
        ++ newline_indent level ++ closing
  end.

Fixpoint json_encode (E : env) (level : nat) (v : pyval) : pystr :=
  match v with
  | PNone => str "null"
  | PBool true => str "true"
  | PBool false => str "false"
  | PInt z => int_repr z
  | PFloat f => encode_float E f
  | PStr s => encode_str s
  | PList l =>
      encode_block (str "[") (str "]") level
        (List.map (json_encode E (S level)) l)
  | PDict d =>
      encode_block (str "{") (str "}") level
        (List.map (fun kv => let '(k, x) := kv in
                             encode_str k ++ str ": " ++ json_encode E (S level) x) d)
  end.

Definition json_dumps (E : env) (payload : pyval) : pystr := json_encode E 0 payload.

(** *** [os.path.join(a, b)] (posixpath) *)
Definition os_path_join (a b : pystr) : pystr :=
  match b with
  | 47%N :: _ => b
  | _ =>
      match last a with
      | None => b
      | Some c => if (c =? 47)%N then a ++ b else a ++ 47%N :: b
      end
  end.

Definition OUTPUT_DIR : pystr := str "output".

(** [os.path.join(OUTPUT_DIR, f"app_{app_id}.json")] *)
Definition file_path_of (app_id : pystr) : pystr :=
  os_path_join OUTPUT_DIR (str "app_" ++ app_id ++ str ".json").

(** *** The world: output files and console *)

Inductive event : Type :=
| Processing (url : pyval)        (* "Processing: {url}" *)
| Saved (file_path : pystr)       (* "Saved -> {file_path}" *)
| Extracted (image_count : Z)     (* "Extracted {image_count} image URLs" *)
| ErrorLine (m : steam_msg)       (* "Error: {e}" *)
| Unexpected (e : exn)            (* "Unexpected error: {e}" *)
| StartupError (m : steam_msg)    (* "Startup error: {e}" *)
| Finished.                       (* "Finished processing all URLs." *)

Record world : Type := {
  files : gmap pystr pystr;       (* content of the files, by path *)
  console : list event            (* lines printed so far *)
}.

(** A statement: it changes the world and returns or raises. *)
Definition M (A : Type) : Type := world -> result A * world.

#[global] Instance M_ret : MRet M := fun A a w => (Return a, w).
#[global] Instance M_bind : MBind M := fun A B f m w =>
  match m w with
  | (Return a, w') => f a w'
  | (Raise e, w') => (Raise e, w')
  end.

Definition lift {A} (r : result A) : M A := fun w => (r, w).

(** [print(line)] on a console that takes the line.  The [print] that
    can also raise is [print_io], with the faults below. *)
Definition print (ev : event) : M unit := fun w =>
  (Return tt, {| files := files w; console := console w ++ [ev] |}).

(** [with open(path, "w") as f: f.write(text)] once the file is open. *)
Definition write_file (path text : pystr) : M unit := fun w =>
  (Return tt, {| files := <[path := text]> (files w); console := console w |}).

(** [try: body except ...: handler] *)
Definition try_except {A} (body : M A) (handler : exn -> M A) : M A := fun w =>
  match body w with
  | (Return a, w') => (Return a, w')
  | (Raise e, w') => handler e w'
  end.

(** Lines 73-82, on a storage that takes the whole text once the file
    is open and a console that takes the saved line.  [save_json_io]
    below is the function with the write that stops part-way and the
    [print] that raises; it is this one when nothing fails. *)
Definition save_json (E : env) (app_id : pystr) (payload : pyval) : M unit :=
  let file_path := file_path_of app_id in
  (match open_error E file_path with
   | Some e => lift (Raise (SteamExtractorError (MsgWriteFailed e)))
   | None => write_file file_path (json_dumps E payload)
   end) ;;
  print (Saved file_path).

(** ** The driver *)

(** Lines 94-96: the number of image URLs reported for a payload. *)
Definition image_count (payload : pyval) : result Z :=
  images ← py_getitem payload (str "images");
  header ← py_getitem images (str "header");
  images ← py_getitem payload (str "images");
  screenshots ← py_getitem images (str "screenshots");
  n ← py_len screenshots;
  Return ((if truthy header then 1 else 0) + n)%Z.

(** Lines 89-98: the body of the [try] of [process_url]. *)
Definition pipeline (E : env) (url : pyval) : M unit :=
  app_id ← lift (extract_app_id url);
  game_data ← lift (fetch_steam_data E app_id);
  payload ← lift (build_payload (PStr app_id) url game_data);
  save_json E app_id payload ;;
  n ← lift (image_count payload);
  print (Extracted n).

Definition process_url (E : env) (url : pyval) : M unit :=
  print (Processing url) ;;
  try_except (pipeline E url)
    (fun e =>
       match e with
       | SteamExtractorError m => print (ErrorLine m)
       | _ => print (Unexpected e)      (* except Exception *)
       end).

(** [[line.strip() for line in f if line.strip()]] *)
Definition load_urls (lines : list pystr) : list pystr :=
  List.map py_strip
    (List.filter (fun line => match py_strip line with [] => false | _ => true end)
       lines).

(** [for x in l: f(x)] *)
Fixpoint for_each {A} (f : A -> M unit) (l : list A) : M unit :=
  match l with
  | [] => mret tt
  | x :: l' => f x ;; for_each f l'
  end.

(** Lines 123-126: the batch over the loaded URLs. *)
Definition run_batch (E : env) (urls : list pystr) : M unit :=
  for_each (fun url => process_url E (PStr url)) urls ;;
  print Finished.

(** ** The failure kinds of the specification

    [SteamExtractorError] is the only exception class of the program;
    the kind of a failure is told by its message. *)

Inductive failure_kind : Type :=
| InvalidInput | Timeout | NetworkError | InvalidResponse
| RemoteFailure | PersistenceError | UnknownError.

Definition kind_of (e : exn) : failure_kind :=
  match e with
  | SteamExtractorError MsgEmptyOrNotString => InvalidInput
  | SteamExtractorError MsgInvalidProductURL => InvalidInput
  | SteamExtractorError MsgTimedOut => Timeout
  | SteamExtractorError (MsgNetworkError _) => NetworkError
  | SteamExtractorError MsgInvalidJSON => InvalidResponse
  | SteamExtractorError MsgMissingAppId => InvalidResponse
  | SteamExtractorError MsgSuccessFalse => RemoteFailure
  | SteamExtractorError (MsgWriteFailed _) => PersistenceError
  | _ => UnknownError
  end.

(** * Notions used in the statements *)

(** [url] reads [pre], then [/app/], then the digits [ds], then [post],
    where [ds] is the whole run of digits found there. *)
Definition occurrence (url pre ds post : pystr) : Prop :=
  url = pre ++ str "/app/" ++ ds ++ post /\
  ds <> [] /\
  Forall (fun c => isdecimal c = true) ds /\
  match post with [] => True | c :: _ => isdecimal c = false end.

(** No occurrence starts further left. *)
Definition first_occurrence (url pre ds post : pystr) : Prop :=
  occurrence url pre ds post /\
  forall pre' ds' post', occurrence url pre' ds' post' -> length pre <= length pre'.

(** [/app/] followed by at least one digit appears somewhere in [url]. *)
Definition has_pattern (url : pystr) : Prop :=
  exists pre d rest, url = pre ++ str "/app/" ++ d :: rest /\ isdecimal d = true.

Arguments match_here : simpl never.

(** [r] is a failure of the kind [k]. *)
Definition fails_with {A} (r : result A) (k : failure_kind) : Prop :=
  exists e, r = Raise e /\ kind_of e = k.

(** [s.split(sep)] for a one-character separator: the components of a
    path when [sep] is the path separator. *)
Fixpoint split_on (sep : codepoint) (s : pystr) : list pystr :=
  match s with
  | [] => [[]]
  | c :: s' =>
      if (c =? sep)%N then [] :: split_on sep s'
      else match split_on sep s' with
           | [] => [[c]]
           | h :: t => (c :: h) :: t
           end
  end.

(** The characters an identifier must not bring into a file name:
    the slash and the backslash, the dot of [..], the drive colon and
    the NUL character. *)
Definition path_special (c : codepoint) : bool :=
  ((c =? 47) || (c =? 92) || (c =? 46) || (c =? 58) || (c =? 0))%N.

(** The envelope's success indicator is falsy or absent. *)
Definition success_falsy_or_absent (envelope : list (pystr * pyval)) : Prop :=
  match dict_lookup (str "success") envelope with
  | Some v => truthy v = false
  | None => True
  end.

(** An environment whose API answers every request with [body]. *)
Definition answering (body : pyval) : env :=
  {| http_get := fun _ => HttpResponse (Some body);
     open_error := fun _ => None;
     float_repr := fun _ => [] |}.

(** The shape of a Normalized Payload. *)
Definition payload_record (app_id name url header : pyval)
    (screenshots : list pyval) : pyval :=
  PDict [ (str "app_id", app_id);
          (str "name", name);
          (str "source", url);
          (str "images",
           PDict [ (str "header", header);
                   (str "screenshots", PList screenshots) ]) ].

(** [game.get("name", "Unknown")] of a dict. *)
Definition name_of (game : list (pystr * pyval)) : pyval :=
  default_or (dict_lookup (str "name") game) (PStr (str "Unknown")).

(** [game.get("header_image")] of a dict. *)
Definition header_of (game : list (pystr * pyval)) : pyval :=
  default_or (dict_lookup (str "header_image") game) PNone.

(** The screenshots field is a list. *)
Definition is_list (v : pyval) : bool :=
  match v with PList _ => true | _ => false end.

(** The world after one more line on the console. *)
Definition add_line (w : world) (ev : event) : world :=
  {| files := files w; console := console w ++ [ev] |}.

(** The world after [text] was written to [path]. *)
Definition add_file (w : world) (path text : pystr) : world :=
  {| files := <[path := text]> (files w); console := console w |}.

(** The stages before the persister, which do not touch the world: the
    identifier and the payload of a URL. *)
Definition prepared (E : env) (url : pyval) : result (pystr * pyval) :=
  app_id ← extract_app_id url;
  game_data ← fetch_steam_data E app_id;
  payload ← build_payload (PStr app_id) url game_data;
  Return (app_id, payload).

(** The line printed by the handlers of [process_url] for [e]. *)
Definition report (e : exn) : event :=
  match e with
  | SteamExtractorError m => ErrorLine m
  | _ => Unexpected e
  end.

(** Unfolds the monadic operations of [M] and [result]. *)
Ltac run_M :=
  cbv beta iota delta
    [mbind mret M_bind M_ret result_bind result_ret lift print write_file try_except].



(** The start of a run: no output file, nothing printed. *)
Definition empty_world : world := {| files := ∅; console := [] |}.

(** A storefront that knows the products 1 and 2. *)
Definition two_products : env :=
  answering
    (PDict [ (str "1", PDict [ (str "success", PBool true);
                               (str "data", PDict [ (str "name", PStr (str "One")) ]) ]);
             (str "2", PDict [ (str "success", PBool true);
                               (str "data", game_x) ]) ]).

(** An input file of three lines; the second is not a product URL. *)
Definition three_lines : list pystr :=
  [ str "https://store.steampowered.com/app/1/One/" ++ [10%N];
    str "not a product page" ++ [10%N];
    str "https://store.steampowered.com/app/2/" ++ [10%N] ].

(** The write an item performs, if it gets to the persister and the
    file can be opened: path and text.  The world has no part in it. *)
Definition written (E : env) (url : pyval) : option (pystr * pystr) :=
  match prepared E url with
  | Return (app_id, payload) =>
      match open_error E (file_path_of app_id) with
      | None => Some (file_path_of app_id, json_dumps E payload)
      | Some _ => None
      end
  | Raise _ => None
  end.

(** Writes performed one after the other; a later one overwrites. *)
Definition apply_writes (ws : list (pystr * pystr)) (m : gmap pystr pystr) :
    gmap pystr pystr :=
  foldl (fun m kv => <[kv.1 := kv.2]> m) m ws.

(** The writes of a batch, in the order of the URLs. *)
Definition writes_of (E : env) (urls : list pystr) : list (pystr * pystr) :=
  omap (fun u => written E (PStr u)) urls.

(** [s] between double quotes. *)
Definition quoted (s : pystr) : pystr := 34%N :: s ++ [34%N].

(** The text of an artifact as the specification lays it out: the
    fields [app_id] (the identifier), [name], [source], then [images]
    with [header] and [screenshots], in this order, two spaces of
    indentation per level.  The arguments are the texts of the five
    values. *)
Definition artifact_layout (app_id name source header screenshots : pystr) : pystr :=
  str "{" ++ newline_indent 1 ++
  quoted (str "app_id") ++ str ": " ++ app_id ++ str "," ++
  newline_indent 1 ++
  quoted (str "name") ++ str ": " ++ name ++ str "," ++
  newline_indent 1 ++
  quoted (str "source") ++ str ": " ++ source ++ str "," ++
  newline_indent 1 ++
  quoted (str "images") ++ str ": {" ++
  newline_indent 2 ++
  quoted (str "header") ++ str ": " ++ header ++ str "," ++
  newline_indent 2 ++
  quoted (str "screenshots") ++ str ": " ++ screenshots ++
  newline_indent 1 ++ str "}" ++
  newline_indent 0 ++ str "}".

(** ** Faults of the console and of the storage

    [print] and the write into the open file can fail too.  The
    definitions above are the run on a console that takes every line
    and a storage that takes the whole text; the ones below take the
    faults as a further part of the environment and agree with them
    when there is none. *)

Record faults : Type := {
  (* the exception [print] raises on a line, nothing of which is then shown *)
  print_error : event -> option exn;
  (* for a path and a text: the exception that ends [json.dump] in the
     open file, and how many characters have reached the file by then *)
  dump_error : pystr -> pystr -> option (nat * exn)
}.



Definition print_io (F : faults) (ev : event) : M unit := fun w =>
  match print_error F ev with
  | Some e => (Raise e, w)
  | None => print ev w
  end.

(** Unfolds the monadic operations, [print_io] included. *)
Ltac run_io :=
  cbv beta iota delta
    [mbind mret M_bind M_ret result_bind result_ret lift print print_io write_file
     try_except].

(** What leaves [save_json] for an exception that ends the write:
    [except OSError] turns an [OSError] into the write failure, any
    other exception passes. *)
Definition as_write_failure (e : exn) : exn :=
  match e with
  | OSError msg => SteamExtractorError (MsgWriteFailed msg)
  | _ => e
  end.

(** Lines 73-82.  [open(path, "w")] fails and leaves the file alone,
    or empties the file; a failure of [json.dump] then leaves the part
    of the text written so far.  [except OSError] covers both. *)
Definition save_json_io (E : env) (F : faults) (app_id : pystr) (payload : pyval) :
    M unit :=
  let file_path := file_path_of app_id in
  (match open_error E file_path with
   | Some e => lift (Raise (SteamExtractorError (MsgWriteFailed e)))
   | None =>
       match dump_error F file_path (json_dumps E payload) with
       | None => write_file file_path (json_dumps E payload)
       | Some (n, e) =>
           write_file file_path (take n (json_dumps E payload)) ;;
           lift (Raise (as_write_failure e))
       end
   end) ;;
  print_io F (Saved file_path).

(** Lines 89-98. *)
Definition pipeline_io (E : env) (F : faults) (url : pyval) : M unit :=
  app_id ← lift (extract_app_id url);
  game_data ← lift (fetch_steam_data E app_id);
  payload ← lift (build_payload (PStr app_id) url game_data);
  save_json_io E F app_id payload ;;
  n ← lift (image_count payload);
  print_io F (Extracted n).

(** Lines 85-105.  The first [print] stands before the [try]; an
    exception raised by a [print] inside a handler leaves the
    function. *)
Definition process_url_io (E : env) (F : faults) (url : pyval) : M unit :=
  print_io F (Processing url) ;;
  try_except (pipeline_io E F url)
    (fun e =>
       match e with
       | SteamExtractorError m => print_io F (ErrorLine m)
       | _ => print_io F (Unexpected e)
       end).


(** ** The entry point *)







(** *** A console that encodes to UTF-8 *)

(** A code point that UTF-8 cannot encode. *)
Definition is_surrogate (c : codepoint) : bool :=
  ((55296 <=? c) && (c <=? 57343))%N.



(** ** Further notions *)

(** The start line of an item. *)
Definition is_processing (ev : event) : bool :=
  match ev with Processing _ => true | _ => false end.

(** The line that tells how an item ended: image count or error. *)
Definition is_outcome (ev : event) : bool :=
  match ev with
  | Extracted _ | ErrorLine _ | Unexpected _ => true
  | _ => false
  end.

(** The full-size path an entry of the screenshots list contributes. *)
Definition entry_path (s : pyval) : option pyval :=
  match s with
  | PDict d => dict_lookup (str "path_full") d
  | _ => None
  end.

(** The entries on which the comprehension of [build_payload] raises:
    those that are no container, and the strings and lists that pass
    the filter and cannot be indexed by a string. *)
Definition breaks_comprehension (s : pyval) : bool :=
  match s with
  | PDict _ => false
  | PStr h => is_substring (str "path_full") h
  | PList l => existsb (eq_str (str "path_full")) l
  | _ => true
  end.

(** Printable ASCII, or the line feed. *)
Definition printable (c : codepoint) : bool :=
  ((32 <=? c) && (c <=? 126) || (c =? 10))%N.

(** The product page of an identifier. *)
Definition store_url (app_id tail : pystr) : pystr :=
  str "https://store.steampowered.com/app/" ++ app_id ++ tail.

(** ** Reading an artifact back

    A reader of JSON text, after [json.loads] and written without
    reference to the encoder above: strings with their escapes (a pair
    of [\u] escapes for a surrogate pair is one character), integers,
    the three literals, lists and objects, with any whitespace between
    the tokens.  Numbers with a fraction or an exponent are not read;
    leading zeros of an integer are accepted. *)

Definition is_ws (c : codepoint) : bool :=
  ((c =? 32) || (c =? 10) || (c =? 13) || (c =? 9))%N.

Definition skip_ws (s : pystr) : pystr := drop_while is_ws s.

(** The value of a hexadecimal digit. *)
Definition hex_value (c : codepoint) : option N :=
  (if (48 <=? c) && (c <=? 57) then Some (c - 48)
   else if (97 <=? c) && (c <=? 102) then Some (c - 87)
   else if (65 <=? c) && (c <=? 70) then Some (c - 55)
   else None)%N.

Definition parse_hex4 (a b c d : codepoint) : option N :=
  va ← hex_value a; vb ← hex_value b; vc ← hex_value c; vd ← hex_value d;
  Some (va * 4096 + vb * 256 + vc * 16 + vd)%N.

(** The character that a backslash and [e] stand for, [e] not being [u]. *)
Definition unescape (e : codepoint) : option codepoint :=
  (if e =? 34 then Some 34
   else if e =? 92 then Some 92
   else if e =? 47 then Some 47
   else if e =? 110 then Some 10
   else if e =? 114 then Some 13
   else if e =? 116 then Some 9
   else if e =? 102 then Some 12
   else if e =? 98 then Some 8
   else None)%N.

Definition is_high_surrogate (n : N) : bool := ((55296 <=? n) && (n <=? 56319))%N.
Definition is_low_surrogate (n : N) : bool := ((56320 <=? n) && (n <=? 57343))%N.

(** The code point of a surrogate pair. *)
Definition of_surrogates (hi lo : N) : codepoint :=
  (65536 + (hi - 55296) * 1024 + (lo - 56320))%N.

(** The low surrogate written as [\uXXXX] at the head of [s], when [hi]
    is a high one. *)
Definition low_surrogate_after (hi : N) (x y a b c d : codepoint) : option N :=
  if is_high_surrogate hi && (x =? 92)%N && (y =? 117)%N then
    lo ← parse_hex4 a b c d;
    if is_low_surrogate lo then Some lo else None
  else None.

(** The characters of a string up to its closing quote, and the rest. *)
Fixpoint parse_chars (s : pystr) : option (pystr * pystr) :=
  match s with
  | [] => None
  | c :: rest =>
      if (c =? 34)%N then Some ([], rest)
      else if (c =? 92)%N then
        match rest with
        | [] => None
        | e :: rest1 =>
            if (e =? 117)%N then
              match rest1 with
              | a :: b :: c' :: d :: rest2 =>
                  match parse_hex4 a b c' d with
                  | None => None
                  | Some n =>
                      match rest2 with
                      | x :: y :: a2 :: b2 :: c2 :: d2 :: rest3 =>
                          match low_surrogate_after n x y a2 b2 c2 d2 with
                          | Some lo =>
                              match parse_chars rest3 with
                              | Some (cs, r) => Some (of_surrogates n lo :: cs, r)
                              | None => None
                              end
                          | None =>
                              match parse_chars rest2 with
                              | Some (cs, r) => Some (n :: cs, r)
                              | None => None
                              end
                          end
                      | _ =>
                          match parse_chars rest2 with
                          | Some (cs, r) => Some (n :: cs, r)
                          | None => None
                          end
                      end
                  end
              | _ => None
              end
            else
              match unescape e with
              | None => None
              | Some ch =>
                  match parse_chars rest1 with
                  | Some (cs, r) => Some (ch :: cs, r)
                  | None => None
                  end
              end
        end
      else if (c <? 32)%N then None
      else
        match parse_chars rest with
        | Some (cs, r) => Some (c :: cs, r)
        | None => None
        end
  end.

(** The characters of an integer. *)
Definition is_int_char (c : codepoint) : bool :=
  ((48 <=? c) && (c <=? 57) || (c =? 45))%N.

Definition unstr (s : pystr) : string :=
  string_of_list_ascii (List.map ascii_of_N s).

Definition parse_int (token : pystr) : option Z :=
  Z.of_int <$> NilZero.int_of_string (unstr token).

Fixpoint parse_value (fuel : nat) (s : pystr) : option (pyval * pystr) :=
  match fuel with
  | O => None
  | S fuel =>
      match s with
      | [] => None
      | c :: rest =>
          if (c =? 34)%N then
            '(cs, r) ← parse_chars rest; Some (PStr cs, r)
          else if (c =? 91)%N then
            match skip_ws rest with
            | [] => None
            | c1 :: r1 =>
                if (c1 =? 93)%N then Some (PList [], r1)
                else '(l, r) ← parse_elements fuel (c1 :: r1); Some (PList l, r)
            end
          else if (c =? 123)%N then
            match skip_ws rest with
            | [] => None
            | c1 :: r1 =>
                if (c1 =? 125)%N then Some (PDict [], r1)
                else '(d, r) ← parse_members fuel (c1 :: r1); Some (PDict d, r)
            end
          else
            match after_prefix (str "null") s with
            | Some r => Some (PNone, r)
            | None =>
                match after_prefix (str "true") s with
                | Some r => Some (PBool true, r)
                | None =>
                    match after_prefix (str "false") s with
                    | Some r => Some (PBool false, r)
                    | None =>
                        z ← parse_int (take_while is_int_char s);
                        Some (PInt z, drop_while is_int_char s)
                    end
                end
            end
      end
  end
with parse_elements (fuel : nat) (s : pystr) : option (list pyval * pystr) :=
  match fuel with
  | O => None
  | S fuel =>
      '(v, r) ← parse_value fuel s;
      match skip_ws r with
      | [] => None
      | c :: r1 =>
          if (c =? 44)%N then
            '(vs, r2) ← parse_elements fuel (skip_ws r1); Some (v :: vs, r2)
          else if (c =? 93)%N then Some ([v], r1)
          else None
      end
  end
with parse_members (fuel : nat) (s : pystr) : option (list (pystr * pyval) * pystr) :=
  match fuel with
  | O => None
  | S fuel =>
      match s with
      | [] => None
      | c :: rest =>
          if (c =? 34)%N then
            '(k, r) ← parse_chars rest;
            match skip_ws r with
            | [] => None
            | c1 :: r1 =>
                if (c1 =? 58)%N then
                  '(v, r2) ← parse_value fuel (skip_ws r1);
                  match skip_ws r2 with
                  | [] => None
                  | c2 :: r3 =>
                      if (c2 =? 44)%N then
                        '(d, r4) ← parse_members fuel (skip_ws r3);
                        Some ((k, v) :: d, r4)
                      else if (c2 =? 125)%N then Some ([(k, v)], r3)
                      else None
                  end
                else None
            end
          else None
      end
  end.

(** [json.loads(text)]: one value, and nothing but whitespace around it. *)
Definition json_loads (text : pystr) : option pyval :=
  match parse_value (2 * length text + 2) (skip_ws text) with
  | Some (v, r) =>
      match skip_ws r with
      | [] => Some v
      | _ :: _ => None
      end
  | None => None
  end.

(** A code point that stands for a character: no surrogate, and within
    the range of Unicode. *)
Definition is_scalar (c : codepoint) : bool :=
  (c <? 1114112)%N && negb (is_surrogate c).

(** The values whose text [json_loads] reads back: no float, and
    strings and keys made of characters. *)
Fixpoint plain (v : pyval) : bool :=
  match v with
  | PFloat _ => false
  | PStr s => forallb is_scalar s
  | PList l => forallb plain l
  | PDict d => forallb (fun kv => let '(k, x) := kv in forallb is_scalar k && plain x) d
  | _ => true
  end.

(** What may follow a number: anything but a digit or a sign. *)
Definition ends_token (rest : pystr) : Prop :=
  match rest with [] => True | c :: _ => is_int_char c = false end.

(** The first character of a value is neither whitespace nor a closing
    bracket. *)
Definition opens_value (c : codepoint) : bool :=
  negb (is_ws c) && negb (c =? 93)%N && negb (c =? 125)%N.

(** The text of one member of a dict at nesting depth [level]. *)
Definition member_text (E : env) (level : nat) (kv : pystr * pyval) : pystr :=
  let '(k, x) := kv in encode_str k ++ str ": " ++ json_encode E (S level) x.

(** The encoding of [v], at any depth and before any text that does
    not continue a number, is read back as [v]. *)
Definition reads_back (E : env) (v : pyval) : Prop :=
  forall level fuel rest,
    length (json_encode E level v) < fuel -> ends_token rest ->
    parse_value fuel (json_encode E level v ++ rest) = Some (v, rest).

(** A product whose name has quotes and a letter outside ASCII. *)
Definition say_hi : list (pystr * pyval) :=
  [ (str "name", PStr (str "Say " ++ [34%N] ++ str "hi" ++ [34; 32; 233]%N));
    (str "header_image", PStr (str "http://h.jpg"));
    (str "screenshots",
     PList [ PDict [ (str "path_full", PStr (str "http://s1.jpg")) ] ]) ].

Definition say_hi_store : env :=
  answering
    (PDict [ (str "7", PDict [ (str "success", PBool true);
                               (str "data", PDict say_hi) ]) ]).

(** The artifact of that product, character by character: the object
    with [app_id], [name], [source] and [images] on lines indented by
    two spaces, the name written as [Say \"hi\" \u00e9], and [images]
    with [header] and the one-element list [screenshots]. *)
Definition say_hi_artifact : pystr :=
  [ 123; 10; 32; 32; 34; 97; 112; 112; 95; 105; 100; 34; 58; 32; 34; 55; 34;
    44; 10; 32; 32; 34; 110; 97; 109; 101; 34; 58; 32; 34; 83; 97; 121; 32;
    92; 34; 104; 105; 92; 34; 32; 92; 117; 48; 48; 101; 57; 34; 44; 10; 32;
    32; 34; 115; 111; 117; 114; 99; 101; 34; 58; 32; 34; 104; 116; 116; 112;
    58; 47; 47; 115; 47; 97; 112; 112; 47; 55; 34; 44; 10; 32; 32; 34; 105;
    109; 97; 103; 101; 115; 34; 58; 32; 123; 10; 32; 32; 32; 32; 34; 104; 101;
    97; 100; 101; 114; 34; 58; 32; 34; 104; 116; 116; 112; 58; 47; 47; 104;
    46; 106; 112; 103; 34; 44; 10; 32; 32; 32; 32; 34; 115; 99; 114; 101; 101;
    110; 115; 104; 111; 116; 115; 34; 58; 32; 91; 10; 32; 32; 32; 32; 32; 32;
    34; 104; 116; 116; 112; 58; 47; 47; 115; 49; 46; 106; 112; 103; 34; 10;
    32; 32; 32; 32; 93; 10; 32; 32; 125; 10; 125 ]%N.

(** * Properties *)

(** ** The model on examples *)

Example extract_store_url :
  extract_app_id (PStr (str "https://store.steampowered.com/app/570/Dota_2/?l=en"))
  = Return (str "570").
Proof. reflexivity. Qed.

Example build_game_x :
  build_payload (PStr (str "10")) (PStr (str "http://x/app/10")) game_x
  = Return (PDict [ (str "app_id", PStr (str "10"));
                    (str "name", PStr (str "Game X"));
                    (str "source", PStr (str "http://x/app/10"));
                    (str "images",
                     PDict [ (str "header", PStr (str "http://h.jpg"));
                             (str "screenshots",
                              PList [ PStr (str "http://s1.jpg");
                                      PStr (str "http://s3.jpg") ]) ]) ]).
Proof. reflexivity. Qed.

(** The leftmost occurrence wins, and [\d] takes the digits of any
    script: here ASCII [1] followed by ARABIC-INDIC DIGIT THREE. *)
Example extract_leftmost :
  extract_app_id (PStr (str "/app//app/12x/app/7")) = Return (str "12").
Proof. reflexivity. Qed.

Example extract_unicode_digits :
  extract_app_id (PStr (str "/app/1" ++ [1635%N] ++ str "a")) = Return [49%N; 1635%N].
Proof. reflexivity. Qed.

Example extract_blank :
  extract_app_id (PStr [8195%N; 31%N; 10%N])
  = Raise (SteamExtractorError MsgEmptyOrNotString).
Proof. reflexivity. Qed.

(** Truthiness of floats: zero of either sign is falsy, NaN is truthy. *)
Example truthy_floats :
  truthy (PFloat PrimFloat.zero) = false /\
  truthy (PFloat PrimFloat.neg_zero) = false /\
  truthy (PFloat PrimFloat.nan) = true.
Proof. repeat split. Qed.

(** One entry that is not an object and passes the filter makes the
    whole comprehension raise [TypeError]: the payload gets no
    screenshot at all. *)
Example build_payload_mixed_entries :
  build_payload (PStr (str "10")) (PStr (str "u"))
    (PDict [ (str "screenshots",
              PList [ PDict [ (str "path_full", PStr (str "a.jpg")) ];
                      PList [ PStr (str "path_full") ] ]) ])
  = Return (payload_record (PStr (str "10")) (PStr (str "Unknown")) (PStr (str "u"))
              PNone []).
Proof. reflexivity. Qed.

(** A record that is not a dict has no [get]: the builder raises
    [AttributeError], which its handler does not catch. *)
Example build_payload_of_list :
  build_payload (PStr (str "10")) (PStr (str "u")) (PList []) = Raise AttributeError.
Proof. reflexivity. Qed.

(** ** Lists and strings *)

Section list_scans.
Context {A : Type} (p : A -> bool).

Lemma take_drop_while (l : list A) : take_while p l ++ drop_while p l = l.
Proof.
  induction l as [|x l IH]; simpl; [done|].
  destruct (p x); simpl; [by rewrite IH | done].
Qed.

Lemma take_while_Forall (l : list A) : Forall (fun x => p x = true) (take_while p l).
Proof.
  induction l as [|x l IH]; simpl; [constructor|].
  destruct (p x) eqn:Hx; [by constructor | constructor].
Qed.

Lemma drop_while_head (l : list A) x l' :
  drop_while p l = x :: l' -> p x = false.
Proof.
  induction l as [|y l IH]; simpl; [done|].
  destruct (p y) eqn:Hy; [done | by intros [= -> _]].
Qed.

Lemma drop_while_nil (l : list A) :
  drop_while p l = [] <-> Forall (fun x => p x = true) l.
Proof.
  induction l as [|x l IH]; simpl; [by split; [constructor|]|].
  destruct (p x) eqn:Hx.
  - rewrite IH. split; [by constructor | by inversion 1].
  - split; [done | inversion 1; congruence].
Qed.

(** The longest prefix satisfying [p] is determined by a split of the
    list where the prefix satisfies [p] and the rest does not start
    with such an element. *)
Lemma take_while_app (ds rest : list A) :
  Forall (fun x => p x = true) ds ->
  match rest with [] => True | c :: _ => p c = false end ->
  take_while p (ds ++ rest) = ds.
Proof.
  intros Hds Hrest. induction Hds as [|x ds Hx _ IH]; simpl.
  - destruct rest as [|c rest]; simpl; [done | by rewrite Hrest].
  - by rewrite Hx, IH.
Qed.
Lemma drop_while_app (ds rest : list A) :
  Forall (fun x => p x = true) ds ->
  match rest with [] => True | c :: _ => p c = false end ->
  drop_while p (ds ++ rest) = rest.
Proof.
  intros Hds Hrest. induction Hds as [|x ds Hx _ IH]; simpl.
  - destruct rest as [|c rest]; simpl; [done | by rewrite Hrest].
  - by rewrite Hx, IH.
Qed.
End list_scans.

Lemma after_prefix_Some (p s r : pystr) :
  after_prefix p s = Some r <-> s = p ++ r.
Proof.
  revert s. induction p as [|a p IH]; intros s; simpl.
  - split; [by intros [= ->] | by intros ->].
  - destruct s as [|b s]; [done|].
    destruct (N.eqb_spec a b) as [->|Hne].
    + rewrite IH. split; [by intros -> | by intros [= ->]].
    + split; [done | intros [= ? ?]; congruence].
Qed.

Lemma py_strip_nil (s : pystr) :
  py_strip s = [] <-> Forall (fun c => isspace c = true) s.
Proof.
  unfold py_strip. split.
  - intros H. apply (f_equal (@rev N)) in H. rewrite rev_involutive in H.
    simpl in H. apply drop_while_nil in H.
    destruct (drop_while isspace s) as [|c s'] eqn:Hd.
    + by apply drop_while_nil.
    + pose proof (drop_while_head _ _ _ _ Hd) as Hc.
      simpl in H. apply Forall_app in H as [_ H].
      inversion H; congruence.
  - intros H. apply drop_while_nil in H. by rewrite H.
Qed.

(** ** The pattern [/app/<digits>], as the specification words it *)

Lemma re_search_eq (s : pystr) :
  re_search s =
  match match_here s with
  | Some ds => Some ds
  | None => match s with [] => None | _ :: s' => re_search s' end
  end.
Proof. by destruct s. Qed.

Lemma match_here_Some (s ds : pystr) :
  match_here s = Some ds <-> exists post, occurrence s [] ds post.
Proof.
  unfold match_here, occurrence. split.
  - destruct (after_prefix (str "/app/") s) as [rest|] eqn:Hp; [|done].
    apply after_prefix_Some in Hp.
    pose proof (take_drop_while isdecimal rest) as Hsplit.
    pose proof (take_while_Forall isdecimal rest) as Hall.
    destruct (take_while isdecimal rest) as [|d ds0] eqn:Ht; [done|].
    intros [= <-]. exists (drop_while isdecimal rest).
    split; [by rewrite Hsplit|]. split; [done|]. split; [done|].
    destruct (drop_while isdecimal rest) as [|c post] eqn:Hd; [done|].
    by apply (drop_while_head isdecimal rest c post).
  - intros (post & -> & Hne & Hall & Hpost).
    assert (after_prefix (str "/app/") ([] ++ str "/app/" ++ ds ++ post)
            = Some (ds ++ post)) as -> by by apply after_prefix_Some.
    rewrite take_while_app by done. by destruct ds.
Qed.

Lemma match_here_is_Some (s : pystr) :
  is_Some (match_here s) <->
  exists d rest, s = str "/app/" ++ d :: rest /\ isdecimal d = true.
Proof.
  split.
  - intros [ds Hm]. apply match_here_Some in Hm as (post & -> & Hne & Hall & _).
    destruct ds as [|d ds]; [done|]. exists d, (ds ++ post).
    split; [done | by inversion Hall].
  - intros (d & rest & -> & Hd). unfold match_here.
    assert (after_prefix (str "/app/") (str "/app/" ++ d :: rest)
            = Some (d :: rest)) as -> by by apply after_prefix_Some.
    simpl. rewrite Hd. by eexists.
Qed.

Lemma re_search_Some (s ds : pystr) :
  re_search s = Some ds <->
  exists pre suf, s = pre ++ suf /\ match_here suf = Some ds /\
    forall pre' suf', s = pre' ++ suf' -> length pre' < length pre ->
                      match_here suf' = None.
Proof.
  induction s as [|c s IH]; rewrite re_search_eq.
  - destruct (match_here []) eqn:Hm; split.
    + intros [= ->]. exists [], []. repeat split; [done|]. simpl; lia.
    + intros (pre & suf & Hs & Hsuf & _).
      symmetry in Hs. apply app_eq_nil in Hs as [-> ->]. congruence.
    + done.
    + intros (pre & suf & Hs & Hsuf & _).
      symmetry in Hs. apply app_eq_nil in Hs as [-> ->]. congruence.
  - destruct (match_here (c :: s)) as [ds0|] eqn:Hm; split.
    + intros [= ->]. exists [], (c :: s). repeat split; [done|]. simpl; lia.
    + intros (pre & suf & Hs & Hsuf & Hfirst).
      destruct pre as [|c' pre]; simpl in Hs.
      * subst suf. congruence.
      * specialize (Hfirst [] (c :: s) eq_refl). simpl in Hfirst.
        rewrite Hfirst in Hm by lia. done.
    + intros Hr. apply IH in Hr as (pre & suf & -> & Hsuf & Hfirst).
      exists (c :: pre), suf. repeat split; [done|].
      intros pre' suf' Hs Hlt. destruct pre' as [|c' pre']; simpl in Hs.
      * by subst suf'.
      * injection Hs as -> Hs. apply (Hfirst pre' suf' Hs). simpl in Hlt. lia.
    + intros (pre & suf & Hs & Hsuf & Hfirst).
      destruct pre as [|c' pre]; simpl in Hs.
      * subst suf. congruence.
      * injection Hs as -> Hs. apply IH. exists pre, suf. repeat split; [done..|].
        intros pre' suf' Hs' Hlt.
        apply (Hfirst (c' :: pre') suf'); [by rewrite Hs' | simpl; lia].
Qed.

Lemma re_search_None (s : pystr) :
  re_search s = None <-> forall pre suf, s = pre ++ suf -> match_here suf = None.
Proof.
  induction s as [|c s IH]; rewrite re_search_eq.
  - split.
    + destruct (match_here []) eqn:Hm; [done|]. intros _ pre suf Hs.
      symmetry in Hs. by apply app_eq_nil in Hs as [-> ->].
    + intros H. by rewrite (H [] []).
  - split.
    + destruct (match_here (c :: s)) eqn:Hm; [done|]. intros Hr pre suf Hs.
      destruct pre as [|c' pre]; simpl in Hs; [by subst suf|].
      injection Hs as -> Hs. by apply (proj1 IH Hr pre suf).
    + intros H. rewrite (H [] (c :: s)) by done. apply IH.
      intros pre suf ->. by apply (H (c :: pre) suf).
Qed.

Lemma occurrence_match_here (url pre ds post : pystr) :
  occurrence url pre ds post ->
  exists suf, url = pre ++ suf /\ match_here suf = Some ds.
Proof.
  intros (-> & Hne & Hall & Hpost). eexists. split; [done|].
  apply match_here_Some. by exists post.
Qed.

Lemma match_here_occurrence (pre suf ds : pystr) :
  match_here suf = Some ds -> exists post, occurrence (pre ++ suf) pre ds post.
Proof.
  intros Hm. apply match_here_Some in Hm as (post & -> & Hne & Hall & Hpost).
  by exists post.
Qed.

Lemma re_search_first (url ds : pystr) :
  re_search url = Some ds <-> exists pre post, first_occurrence url pre ds post.
Proof.
  rewrite re_search_Some. split.
  - intros (pre & suf & -> & Hm & Hfirst).
    destruct (match_here_occurrence pre suf ds Hm) as [post Hocc].
    exists pre, post. split; [done|]. intros pre' ds' post' Hocc'.
    apply occurrence_match_here in Hocc' as (suf' & Hs & Hm').
    destruct (decide (length pre' < length pre)) as [Hlt|]; [|lia].
    rewrite (Hfirst pre' suf' Hs Hlt) in Hm'. done.
  - intros (pre & post & Hocc & Hfirst).
    destruct (occurrence_match_here _ _ _ _ Hocc) as (suf & -> & Hm).
    exists pre, suf. repeat split; [done|]. intros pre' suf' Hs Hlt.
    destruct (match_here suf') as [ds'|] eqn:Hm'; [|done].
    destruct (match_here_occurrence pre' suf' ds' Hm') as [post' Hocc'].
    rewrite <- Hs in Hocc'. apply Hfirst in Hocc'. lia.
Qed.

Lemma re_search_has_pattern (url : pystr) :
  is_Some (re_search url) <-> has_pattern url.
Proof.
  split.
  - intros [ds Hr]. apply re_search_Some in Hr as (pre & suf & -> & Hm & _).
    destruct (proj1 (match_here_is_Some suf)) as (d & rest & -> & Hd); [by eexists|].
    by exists pre, d, rest.
  - intros (pre & d & rest & -> & Hd).
    destruct (re_search _) as [ds|] eqn:Hr; [by eexists|].
    rewrite re_search_None in Hr.
    specialize (Hr pre (str "/app/" ++ d :: rest) eq_refl).
    destruct (proj2 (match_here_is_Some (str "/app/" ++ d :: rest))) as [ds Hm];
      [by exists d, rest | congruence].
Qed.

(** A string with the pattern has a character that is not whitespace. *)
Lemma has_pattern_strip (url : pystr) : has_pattern url -> py_strip url <> [].
Proof.
  intros (pre & d & rest & -> & _) Hs. apply py_strip_nil in Hs.
  apply Forall_app in Hs as [_ Hs]. by inversion Hs.
Qed.

Lemma extract_app_id_str (url : pystr) :
  py_strip url <> [] ->
  extract_app_id (PStr url) =
  match re_search url with
  | Some ds => Return ds
  | None => Raise (SteamExtractorError MsgInvalidProductURL)
  end.
Proof. intros Hs. simpl. by destruct (py_strip url). Qed.

(** C1. On a string that contains [/app/<digits>] the extractor returns
    the digits of the leftmost occurrence, and such an occurrence exists
    whenever the pattern appears; on a value that is not a string, on an
    empty or whitespace-only string, and on a string without the
    pattern, it fails with an [InvalidInput] failure. *)
Theorem extract_app_id_spec :
  (forall url pre ds post,
      first_occurrence url pre ds post -> extract_app_id (PStr url) = Return ds) /\
  (forall url, has_pattern url -> exists pre ds post, first_occurrence url pre ds post) /\
  (forall v, (forall s, v <> PStr s) -> fails_with (extract_app_id v) InvalidInput) /\
  (forall url, Forall (fun c => isspace c = true) url ->
               fails_with (extract_app_id (PStr url)) InvalidInput) /\
  (forall url, ~ has_pattern url -> fails_with (extract_app_id (PStr url)) InvalidInput).
Proof.
  split; [|split; [|split; [|split]]].
  - intros url pre ds post Hfirst.
    assert (re_search url = Some ds) as Hr by (apply re_search_first; eauto).
    rewrite extract_app_id_str, Hr; [done|].
    apply has_pattern_strip, re_search_has_pattern. by eexists.
  - intros url Hp. apply re_search_has_pattern in Hp as [ds Hr].
    apply re_search_first in Hr as (pre & post & Hfirst). eauto.
  - intros v Hv. destruct v; try (by eexists); by destruct (Hv s).
  - intros url Hsp. apply py_strip_nil in Hsp. simpl. rewrite Hsp. by eexists.
  - intros url Hp. simpl. destruct (py_strip url); [by eexists|].
    destruct (re_search url) as [ds|] eqn:Hr; [|by eexists].
    destruct Hp. apply re_search_has_pattern. by eexists.
Qed.

Lemma extract_app_id_spec_witness :
  first_occurrence (str "/app/730/x") [] (str "730") (str "/x") /\
  extract_app_id (PStr (str "/app/730/x")) = Return (str "730").
Proof.
  assert (first_occurrence (str "/app/730/x") [] (str "730") (str "/x")) as H.
  { split.
    - split; [reflexivity|]. split; [discriminate|].
      split; [repeat constructor | reflexivity].
    - intros; simpl; lia. }
  split; [exact H|].
  exact (proj1 extract_app_id_spec _ _ _ _ H).
Defined.

(** ** The identifier as a file name *)

Lemma split_on_free (sep : codepoint) (s : pystr) :
  Forall (fun c => c <> sep) s -> split_on sep s = [s].
Proof.
  induction 1 as [|c s Hc _ IH]; simpl; [done|].
  destruct (N.eqb_spec c sep); [done|]. by rewrite IH.
Qed.

Lemma split_on_app (sep : codepoint) (a b : pystr) :
  Forall (fun c => c <> sep) a ->
  split_on sep (a ++ sep :: b) = a :: split_on sep b.
Proof.
  induction 1 as [|c a Hc _ IH]; simpl.
  - by rewrite N.eqb_refl.
  - destruct (N.eqb_spec c sep); [done|]. by rewrite IH.
Qed.

Lemma isdecimal_not_special (c : codepoint) :
  isdecimal c = true -> path_special c = false.
Proof.
  intros Hd. unfold path_special.
  repeat match goal with
         | |- context [(c =? ?k)%N] =>
             destruct (N.eqb_spec c k) as [->|_]; [by vm_compute in Hd|]
         end.
  done.
Qed.

Lemma extract_app_id_Return (url : pyval) (app_id : pystr) :
  extract_app_id url = Return app_id ->
  exists u, url = PStr u /\ re_search u = Some app_id.
Proof.
  destruct url as [| | | |u| |]; try done. simpl.
  destruct (py_strip u); [done|].
  destruct (re_search u) as [ds|] eqn:Hr; [|done].
  intros [= ->]. by exists u.
Qed.

Lemma extract_app_id_digits (url : pyval) (app_id : pystr) :
  extract_app_id url = Return app_id ->
  app_id <> [] /\ Forall (fun c => isdecimal c = true) app_id.
Proof.
  intros (u & -> & Hr)%extract_app_id_Return.
  apply re_search_first in Hr as (pre & post & (_ & Hne & Hall & _) & _).
  done.
Qed.

(** C10. Whenever extraction succeeds the identifier is a non-empty
    string of decimal digits (the class [\d] of the pattern); none of
    its characters is a path separator, a dot, a colon or NUL, and the
    output path is [output/app_<identifier>.json], whose components are
    the output directory and one file name. *)
Theorem extract_app_id_path_safe (url : pyval) (app_id : pystr) :
  extract_app_id url = Return app_id ->
  app_id <> [] /\
  Forall (fun c => isdecimal c = true) app_id /\
  Forall (fun c => path_special c = false) app_id /\
  file_path_of app_id = str "output/app_" ++ app_id ++ str ".json" /\
  split_on 47 (file_path_of app_id) = [OUTPUT_DIR; str "app_" ++ app_id ++ str ".json"].
Proof.
  intros [Hne Hall]%extract_app_id_digits.
  assert (Forall (fun c => path_special c = false) app_id) as Hsafe.
  { eapply Forall_impl; [exact Hall|]. apply isdecimal_not_special. }
  split; [done|]. split; [done|]. split; [done|]. split; [done|].
  change (file_path_of app_id)
    with (str "output" ++ 47%N :: (str "app_" ++ app_id ++ str ".json")).
  rewrite split_on_app by (repeat constructor; done).
  rewrite split_on_free; [done|].
  repeat (apply Forall_app; split); [repeat constructor; done| |repeat constructor; done].
  eapply Forall_impl; [exact Hsafe|]. intros c Hc ->. done.
Qed.

Lemma extract_app_id_path_safe_witness :
  file_path_of (str "570") = str "output/app_570.json".
Proof.
  exact (proj1 (proj2 (proj2 (proj2
    (extract_app_id_path_safe (PStr (str "https://store.steampowered.com/app/570/"))
       (str "570") eq_refl))))).
Defined.

(** ** The remote fetcher *)

Lemma unwrap_envelope_dict (app_id : pystr) (d envelope : list (pystr * pyval)) :
  dict_lookup app_id d = Some (PDict envelope) ->
  unwrap_envelope app_id (PDict d) =
  match dict_lookup (str "success") envelope with
  | Some v =>
      if truthy v then py_getitem (PDict envelope) (str "data")
      else Raise (SteamExtractorError MsgSuccessFalse)
  | None => Raise (SteamExtractorError MsgSuccessFalse)
  end.
Proof.
  intros Hd. unfold unwrap_envelope. cbn [str_in py_getitem mbind result_bind].
  rewrite Hd. rewrite bool_decide_eq_true_2 by by eexists.
  cbn [negb py_get py_getitem default_or mbind result_bind].
  destruct (dict_lookup (str "success") envelope) as [v|];
    cbn [default_or truthy negb]; [|done].
  by destruct (truthy v).
Qed.

(** C3, as the code has it.  For a parsed body that is an object whose
    entry for the identifier is itself an object: the fetcher fails with
    [RemoteFailure] exactly when the success indicator of that envelope
    is falsy or absent, and otherwise returns the envelope's [data]
    entry when there is one.  For a parsed body in which the membership
    test finds no such key, it fails with [InvalidResponse]. *)
Theorem fetch_steam_data_envelope (E : env) (app_id : pystr) (data : pyval) :
  http_get E (api_url app_id) = HttpResponse (Some data) ->
  (forall d envelope,
      data = PDict d -> dict_lookup app_id d = Some (PDict envelope) ->
      (fails_with (fetch_steam_data E app_id) RemoteFailure
       <-> success_falsy_or_absent envelope) /\
      (~ success_falsy_or_absent envelope ->
       forall v, dict_lookup (str "data") envelope = Some v ->
                 fetch_steam_data E app_id = Return v)) /\
  (str_in app_id data = Return false ->
   fetch_steam_data E app_id = Raise (SteamExtractorError MsgMissingAppId) /\
   fails_with (fetch_steam_data E app_id) InvalidResponse).
Proof.
  intros Hget. unfold fetch_steam_data. rewrite Hget. split.
  - intros d envelope -> Hd. rewrite (unwrap_envelope_dict _ _ _ Hd).
    unfold success_falsy_or_absent, fails_with.
    destruct (dict_lookup (str "success") envelope) as [s|].
    + destruct (truthy s); cbn [py_getitem].
      * split.
        -- split; [|done]. intros (e & He & Hk).
           destruct (dict_lookup (str "data") envelope);
             [done | by injection He as <-].
        -- intros _ v ->. done.
      * split; [split; [done | by eexists] | by intros []].
    + split; [split; [done | by eexists] | by intros []].
  - intros Hin. unfold unwrap_envelope. rewrite Hin.
    split; [done | by eexists].
Qed.

Lemma fetch_steam_data_envelope_witness :
  fetch_steam_data
    (answering (PDict [ (str "10", PDict [ (str "success", PBool true);
                                           (str "data", PDict [ (str "name", PStr (str "G")) ]) ]) ]))
    (str "10")
  = Return (PDict [ (str "name", PStr (str "G")) ]).
Proof.
  set (envelope := [ (str "success", PBool true);
                     (str "data", PDict [ (str "name", PStr (str "G")) ]) ]).
  destruct (fetch_steam_data_envelope
              (answering (PDict [ (str "10", PDict envelope) ])) (str "10") _ eq_refl)
    as [H _].
  destruct (H _ envelope eq_refl eq_refl) as [_ Hdata].
  apply Hdata; [|reflexivity].
  unfold success_falsy_or_absent. simpl. discriminate.
Defined.

(** C3, as stated, fails: a body with the key, a true success flag and
    no [data] entry makes the fetcher raise [KeyError], which is neither
    a returned value nor a [RemoteFailure]; an envelope that is [null]
    (no success indicator at all) makes it raise [AttributeError]
    instead of a [RemoteFailure]; and a [null] body (the key is absent)
    makes it raise [TypeError] instead of an [InvalidResponse]. *)
Lemma fetch_steam_data_envelope_counterexample :
  fetch_steam_data
    (answering (PDict [ (str "10", PDict [ (str "success", PBool true) ]) ]))
    (str "10") = Raise (KeyError (str "data")) /\
  fetch_steam_data (answering (PDict [ (str "10", PNone) ])) (str "10")
    = Raise AttributeError /\
  fetch_steam_data (answering PNone) (str "10") = Raise TypeError.
Proof. repeat split. Qed.

(** ** The payload builder *)

Lemma str_in_cases (k : pystr) (c : pyval) :
  (exists b, str_in k c = Return b) \/ str_in k c = Raise TypeError.
Proof. destruct c; simpl; eauto. Qed.

Lemma py_iter_cases (c : pyval) :
  (exists l, py_iter c = Return l) \/ py_iter c = Raise TypeError.
Proof. destruct c; simpl; eauto. Qed.

(** The comprehension returns a list or raises [TypeError], nothing else. *)
Lemma path_full_of_cases (items : list pyval) :
  (exists l, path_full_of items = Return l) \/ path_full_of items = Raise TypeError.
Proof.
  induction items as [|s items IH]; simpl; [by left; eexists|].
  destruct s as [| | | |h|l|d]; simpl; try (by right).
  - destruct (is_substring _ h); [by right | done].
  - destruct (existsb _ l); [by right | done].
  - destruct (dict_lookup (str "path_full") d) as [v|] eqn:Hd.
    + rewrite bool_decide_eq_true_2 by by eexists. simpl.
      destruct IH as [[l ->] | ->]; [left; by eexists | by right].
    + rewrite bool_decide_eq_false_2 by by intros [? [=]]. done.
Qed.

(** Iterating a string or a dict never collects anything: the items are
    strings, on which the element expression raises [TypeError] if the
    filter lets one through. *)
Lemma path_full_of_strings (ss : list pystr) :
  path_full_of (List.map PStr ss) = Return [] \/
  path_full_of (List.map PStr ss) = Raise TypeError.
Proof.
  induction ss as [|s ss IH]; simpl; [by left|].
  destruct (is_substring _ s); [by right | done].
Qed.

Lemma build_payload_dict (app_id url : pyval) (game : list (pystr * pyval)) :
  build_payload app_id url (PDict game) =
  Return (payload_record app_id (name_of game) url (header_of game)
            match except_TypeError
                    (py_iter (default_or (dict_lookup (str "screenshots") game) (PList []))
                       ≫= path_full_of)
                    (Return []) with
            | Return l => l
            | Raise _ => []
            end).
Proof.
  unfold build_payload. cbn [py_get mbind result_bind].
  destruct (py_iter_cases (default_or (dict_lookup (str "screenshots") game) (PList [])))
    as [[items ->] | ->]; cbn [mbind result_bind]; [|done].
  destruct (path_full_of_cases items) as [[l ->] | ->]; done.
Qed.

Lemma build_payload_returns (app_id url : pyval) (game : list (pystr * pyval)) :
  exists screenshots,
    build_payload app_id url (PDict game)
    = Return (payload_record app_id (name_of game) url (header_of game) screenshots).
Proof. rewrite build_payload_dict. by eexists. Qed.

(** C4. For every record that is a dict, and whatever its screenshots
    field holds, the builder returns a payload (it does not raise) and
    the payload's [screenshots] is a list; it is the empty list when
    the field is missing or is not a list (null, a number, a boolean, a
    string, an object). *)
Theorem build_payload_never_raises (app_id url : pyval) (game : list (pystr * pyval)) :
  exists screenshots,
    build_payload app_id url (PDict game)
    = Return (payload_record app_id (name_of game) url (header_of game) screenshots) /\
    (payload ← build_payload app_id url (PDict game);
     images ← py_getitem payload (str "images");
     py_getitem images (str "screenshots")) = Return (PList screenshots) /\
    (match dict_lookup (str "screenshots") game with
     | None => True
     | Some field => is_list field = false
     end -> screenshots = []).
Proof.
  rewrite build_payload_dict. eexists. split; [done|]. split; [done|].
  destruct (dict_lookup (str "screenshots") game) as [field|]; [|done].
  destruct field as [| | | |s|l|d]; try done; intros _; cbn [default_or py_iter mbind result_bind].
  - destruct (path_full_of_strings (List.map (fun ch => [ch]) s)) as [H|H];
      rewrite List.map_map in H; by rewrite H.
  - destruct (path_full_of_strings (List.map fst d)) as [H|H];
      rewrite List.map_map in H; by rewrite H.
Qed.

Lemma path_full_of_dicts (ds : list (list (pystr * pyval))) :
  path_full_of (List.map PDict ds) = Return (omap (dict_lookup (str "path_full")) ds).
Proof.
  induction ds as [|d ds IH]; [done|]. simpl.
  destruct (dict_lookup (str "path_full") d) as [v|] eqn:Hd.
  - rewrite bool_decide_eq_true_2 by by eexists. simpl. by rewrite IH.
  - rewrite bool_decide_eq_false_2 by by intros [? [=]]. done.
Qed.

(** C5. When the screenshots field is a list of objects, the payload's
    screenshots are the [path_full] values of the entries that have
    one, in the order of the record, the other entries being skipped;
    for the record Game X they are [http://s1.jpg] and [http://s3.jpg]. *)
Theorem build_payload_screenshots (app_id url : pyval) (game : list (pystr * pyval))
    (entries : list (list (pystr * pyval))) :
  dict_lookup (str "screenshots") game = Some (PList (List.map PDict entries)) ->
  build_payload app_id url (PDict game)
  = Return (payload_record app_id (name_of game) url (header_of game)
              (omap (dict_lookup (str "path_full")) entries)) /\
  build_payload app_id url game_x
  = Return (payload_record app_id (PStr (str "Game X")) url (PStr (str "http://h.jpg"))
              [ PStr (str "http://s1.jpg"); PStr (str "http://s3.jpg") ]).
Proof.
  intros Hs. split; [|done].
  rewrite build_payload_dict, Hs. cbn [default_or py_iter mbind result_bind].
  by rewrite path_full_of_dicts.
Qed.

Lemma build_payload_screenshots_witness :
  build_payload (PStr (str "10")) (PStr (str "u"))
    (PDict [ (str "screenshots",
              PList [ PDict [ (str "id", PInt 1) ];
                      PDict [ (str "path_full", PStr (str "a.jpg")) ] ]) ])
  = Return (payload_record (PStr (str "10")) (PStr (str "Unknown")) (PStr (str "u")) PNone
              [ PStr (str "a.jpg") ]).
Proof.
  exact (proj1 (build_payload_screenshots (PStr (str "10")) (PStr (str "u"))
                  [ (str "screenshots",
                     PList [ PDict [ (str "id", PInt 1) ];
                             PDict [ (str "path_full", PStr (str "a.jpg")) ] ]) ]
                  [ [ (str "id", PInt 1) ]; [ (str "path_full", PStr (str "a.jpg")) ] ]
                  eq_refl)).
Defined.

(** ** The driver: what one item does to the world *)

Lemma pipeline_eq (E : env) (url : pyval) (w : world) :
  pipeline E url w =
  match prepared E url with
  | Raise e => (Raise e, w)
  | Return (app_id, payload) =>
      match open_error E (file_path_of app_id) with
      | Some e => (Raise (SteamExtractorError (MsgWriteFailed e)), w)
      | None =>
          let w1 := add_line (add_file w (file_path_of app_id) (json_dumps E payload))
                      (Saved (file_path_of app_id)) in
          match image_count payload with
          | Return n => (Return tt, add_line w1 (Extracted n))
          | Raise e => (Raise e, w1)
          end
      end
  end.
Proof.
  unfold pipeline, prepared. run_M.
  destruct (extract_app_id url) as [app_id|e]; run_M; [|done].
  destruct (fetch_steam_data E app_id) as [game|e]; run_M; [|done].
  destruct (build_payload (PStr app_id) url game) as [payload|e]; run_M; [|done].
  unfold save_json. run_M.
  destruct (open_error E (file_path_of app_id)); run_M; [done|].
  destruct (image_count payload); done.
Qed.

Lemma process_url_eq (E : env) (url : pyval) (w : world) :
  process_url E url w =
  match pipeline E url (add_line w (Processing url)) with
  | (Return _, w') => (Return tt, w')
  | (Raise e, w') => (Return tt, add_line w' (report e))
  end.
Proof.
  unfold process_url. run_M. fold (add_line w (Processing url)).
  destruct (pipeline E url _) as [[[]|e] w']; [done|].
  by destruct e.
Qed.

(** The driver returns normally, whatever the item and the world. *)
Lemma process_url_returns (E : env) (url : pyval) (w : world) :
  exists w', process_url E url w = (Return tt, w').
Proof.
  rewrite process_url_eq. destruct (pipeline E url _) as [[?|e] w']; eauto.
Qed.

Lemma for_each_returns {A} (f : A -> M unit) (l : list A) (w : world) :
  (forall x w, exists w', f x w = (Return tt, w')) ->
  exists w', for_each f l w = (Return tt, w').
Proof.
  intros Hf. revert w. induction l as [|x l IH]; intros w; simpl; [by eexists|].
  run_M. destruct (Hf x w) as [w1 ->]. apply IH.
Qed.

(** On a failure before the persister the item only prints. *)
Lemma process_url_failure (E : env) (url : pyval) (e : exn) (w : world) :
  prepared E url = Raise e ->
  process_url E url w
  = (Return tt, add_line (add_line w (Processing url)) (report e)).
Proof. intros H. by rewrite process_url_eq, pipeline_eq, H. Qed.

Lemma image_count_record (app_id name url header : pyval) (screenshots : list pyval) :
  image_count (payload_record app_id name url header screenshots)
  = Return ((if truthy header then 1 else 0) + Z.of_nat (length screenshots))%Z.
Proof. reflexivity. Qed.

(** A successful item: file written, two lines printed after the first. *)
Lemma process_url_success (E : env) (url : pyval) (app_id : pystr)
    (game : list (pystr * pyval)) (w : world) :
  extract_app_id url = Return app_id ->
  fetch_steam_data E app_id = Return (PDict game) ->
  open_error E (file_path_of app_id) = None ->
  exists screenshots,
    let payload := payload_record (PStr app_id) (name_of game) url (header_of game)
                     screenshots in
    build_payload (PStr app_id) url (PDict game) = Return payload /\
    process_url E url w
    = (Return tt,
       add_line
         (add_line
            (add_file (add_line w (Processing url))
               (file_path_of app_id) (json_dumps E payload))
            (Saved (file_path_of app_id)))
         (Extracted ((if truthy (header_of game) then 1 else 0)
                     + Z.of_nat (length screenshots)))).
Proof.
  intros Hx Hf Ho.
  destruct (build_payload_returns (PStr app_id) url game) as [shots Hb].
  exists shots. split; [done|].
  rewrite process_url_eq, pipeline_eq. unfold prepared.
  rewrite Hx. cbn [mbind result_bind]. rewrite Hf. cbn [mbind result_bind].
  rewrite Hb. cbn [mbind result_bind]. rewrite Ho.
  by rewrite image_count_record.
Qed.

Lemma for_each_cons {A} (f : A -> M unit) (x : A) (l : list A) (w w1 : world) :
  f x w = (Return tt, w1) -> for_each f (x :: l) w = for_each f l w1.
Proof. intros H. simpl. run_M. by rewrite H. Qed.


Lemma run_batch_returns (E : env) (urls : list pystr) (w : world) :
  exists w', run_batch E urls w = (Return tt, w').
Proof.
  unfold run_batch. run_M.
  destruct (for_each_returns (fun url => process_url E (PStr url)) urls w) as [w1 ->];
    [intros; apply process_url_returns | by eexists].
Qed.

Lemma file_path_of_eq (app_id : pystr) :
  file_path_of app_id = str "output/app_" ++ app_id ++ str ".json".
Proof. reflexivity. Qed.

Lemma file_path_of_inj (a b : pystr) : file_path_of a = file_path_of b -> a = b.
Proof.
  rewrite !file_path_of_eq. intros H.
  apply app_inv_head in H. by apply app_inv_tail in H.
Qed.



(** ** The driver on a console and a storage that can fail *)

Lemma print_io_ok (F : faults) (ev : event) (w : world) :
  print_error F ev = None -> print_io F ev w = (Return tt, add_line w ev).
Proof. intros H. unfold print_io. by rewrite H. Qed.

Lemma save_json_io_eq (E : env) (F : faults) (app_id : pystr) (payload : pyval)
    (w : world) :
  save_json_io E F app_id payload w =
  match open_error E (file_path_of app_id) with
  | Some msg => (Raise (SteamExtractorError (MsgWriteFailed msg)), w)
  | None =>
      match dump_error F (file_path_of app_id) (json_dumps E payload) with
      | Some (k, e) =>
          (Raise (as_write_failure e),
           add_file w (file_path_of app_id) (take k (json_dumps E payload)))
      | None =>
          match print_error F (Saved (file_path_of app_id)) with
          | Some e =>
              (Raise e, add_file w (file_path_of app_id) (json_dumps E payload))
          | None =>
              (Return tt,
               add_line (add_file w (file_path_of app_id) (json_dumps E payload))
                 (Saved (file_path_of app_id)))
          end
      end
  end.
Proof.
  unfold save_json_io. run_io.
  destruct (open_error E (file_path_of app_id)); [done|].
  destruct (dump_error F (file_path_of app_id) (json_dumps E payload)) as [[k e]|];
    [done|].
  cbn [files console]. by destruct (print_error F (Saved (file_path_of app_id))).
Qed.

Lemma pipeline_io_eq (E : env) (F : faults) (url : pyval) (w : world) :
  pipeline_io E F url w =
  match prepared E url with
  | Raise e => (Raise e, w)
  | Return (app_id, payload) =>
      match save_json_io E F app_id payload w with
      | (Raise e, w1) => (Raise e, w1)
      | (Return _, w1) =>
          match image_count payload with
          | Raise e => (Raise e, w1)
          | Return n =>
              match print_error F (Extracted n) with
              | Some e => (Raise e, w1)
              | None => (Return tt, add_line w1 (Extracted n))
              end
          end
      end
  end.
Proof.
  unfold pipeline_io, prepared. run_io.
  destruct (extract_app_id url) as [app_id|e]; run_io; [|done].
  destruct (fetch_steam_data E app_id) as [game|e]; run_io; [|done].
  destruct (build_payload (PStr app_id) url game) as [payload|e]; run_io; [|done].
  destruct (save_json_io E F app_id payload w) as [[[]|e] w1]; [|done].
  destruct (image_count payload) as [n|e]; [|done].
  by destruct (print_error F (Extracted n)).
Qed.

Lemma process_url_io_eq (E : env) (F : faults) (url : pyval) (w : world) :
  process_url_io E F url w =
  match print_error F (Processing url) with
  | Some e => (Raise e, w)
  | None =>
      match pipeline_io E F url (add_line w (Processing url)) with
      | (Return _, w') => (Return tt, w')
      | (Raise e0, w') =>
          match print_error F (report e0) with
          | Some e => (Raise e, w')
          | None => (Return tt, add_line w' (report e0))
          end
      end
  end.
Proof.
  unfold process_url_io. run_io.
  destruct (print_error F (Processing url)); [done|].
  fold (add_line w (Processing url)).
  destruct (pipeline_io E F url _) as [[[]|e0] w']; [done|].
  destruct e0; cbn [report]; by destruct (print_error F _).
Qed.










(** ** Running the batch again *)

Lemma process_url_files (E : env) (url : pyval) (w : world) :
  files (process_url E url w).2 = apply_writes (option_list (written E url)) (files w).
Proof.
  rewrite process_url_eq, pipeline_eq. unfold written.
  destruct (prepared E url) as [[app_id payload]|e]; [|done].
  destruct (open_error E (file_path_of app_id)); [done|].
  by destruct (image_count payload).
Qed.

Lemma apply_writes_app (ws1 ws2 : list (pystr * pystr)) (m : gmap pystr pystr) :
  apply_writes (ws1 ++ ws2) m = apply_writes ws2 (apply_writes ws1 m).
Proof. apply foldl_app. Qed.

Lemma for_each_files (E : env) (urls : list pystr) (w : world) :
  files (for_each (fun url => process_url E (PStr url)) urls w).2
  = apply_writes (writes_of E urls) (files w).
Proof.
  revert w. induction urls as [|u urls IH]; intros w; [done|].
  destruct (process_url_returns E (PStr u) w) as [w1 H1].
  rewrite (for_each_cons (fun url => process_url E (PStr url)) u urls w w1 H1), IH.
  pose proof (process_url_files E (PStr u) w) as Hf. rewrite H1 in Hf.
  cbn [snd] in Hf. rewrite Hf. unfold writes_of. cbn [omap list_omap].
  by destruct (written E (PStr u)).
Qed.

Lemma run_batch_files (E : env) (urls : list pystr) (w : world) :
  files (run_batch E urls w).2 = apply_writes (writes_of E urls) (files w).
Proof.
  rewrite <- for_each_files. unfold run_batch. run_M.
  by destruct (for_each _ urls w) as [[[]|e] w1].
Qed.

Lemma apply_writes_union (ws : list (pystr * pystr)) (m : gmap pystr pystr) :
  apply_writes ws m = list_to_map (reverse ws) ∪ m.
Proof.
  induction ws as [|[k v] ws IH] using rev_ind.
  - change (m = ∅ ∪ m). by rewrite (left_id_L ∅ (∪)).
  - rewrite apply_writes_app, reverse_app. cbn [apply_writes foldl fst snd].
    rewrite IH. cbn [reverse rev_append app list_to_map foldr].
    by rewrite insert_union_l.
Qed.

(** C8. A second run of the batch on the same input, with the same
    remote data and storage behaviour, leaves the output files exactly
    as the first run left them: each run performs the same writes
    (same paths, same texts), whatever the files held before. *)
Theorem run_batch_idempotent (E : env) (urls : list pystr) (w : world) :
  files (run_batch E urls w).2 = apply_writes (writes_of E urls) (files w) /\
  files (run_batch E urls (run_batch E urls w).2).2
  = apply_writes (writes_of E urls) (files (run_batch E urls w).2) /\
  files (run_batch E urls (run_batch E urls w).2).2 = files (run_batch E urls w).2.
Proof.
  split; [apply run_batch_files|]. split; [apply run_batch_files|].
  rewrite !run_batch_files, !apply_writes_union.
  by rewrite (assoc_L (∪)), (idemp_L (∪)).
Qed.

(** ** The artifact *)

Lemma json_dumps_record (E : env) (app_id name url header : pyval)
    (screenshots : list pyval) :
  json_dumps E (payload_record app_id name url header screenshots)
  = artifact_layout (json_encode E 1 app_id) (json_encode E 1 name)
      (json_encode E 1 url) (json_encode E 2 header)
      (json_encode E 2 (PList screenshots)).
Proof.
  unfold json_dumps, payload_record, artifact_layout.
  cbn [json_encode List.map encode_block join].
  change (encode_str (str "app_id")) with (quoted (str "app_id")).
  change (encode_str (str "name")) with (quoted (str "name")).
  change (encode_str (str "source")) with (quoted (str "source")).
  change (encode_str (str "images")) with (quoted (str "images")).
  change (encode_str (str "header")) with (quoted (str "header")).
  change (encode_str (str "screenshots")) with (quoted (str "screenshots")).
  change (str ": {") with (str ": " ++ str "{").
  by rewrite <- !app_assoc.
Qed.

(** The encoder on a payload with escapes, numbers and nested, also
    empty, containers: the text [json.dumps(payload, indent=2)] gives. *)
Example json_dumps_sample :
  json_dumps (answering PNone)
    (payload_record (PStr (str "10"))
       (PStr [71; 34; 120; 10; 8364; 128512; 127; 92]%N)
       (PStr (str "http://x/app/10")) PNone
       [ PStr (str "a"); PInt 12; PInt (-3); PBool true; PList []; PDict [];
         PList [ PBool false; PDict [ (str "k", PInt 0) ] ] ])
  = [ 123; 10; 32; 32; 34; 97; 112; 112; 95; 105; 100; 34; 58; 32; 34; 49; 48;
    34; 44; 10; 32; 32; 34; 110; 97; 109; 101; 34; 58; 32; 34; 71; 92; 34;
    120; 92; 110; 92; 117; 50; 48; 97; 99; 92; 117; 100; 56; 51; 100; 92;
    117; 100; 101; 48; 48; 92; 117; 48; 48; 55; 102; 92; 92; 34; 44; 10; 32;
    32; 34; 115; 111; 117; 114; 99; 101; 34; 58; 32; 34; 104; 116; 116; 112;
    58; 47; 47; 120; 47; 97; 112; 112; 47; 49; 48; 34; 44; 10; 32; 32; 34;
    105; 109; 97; 103; 101; 115; 34; 58; 32; 123; 10; 32; 32; 32; 32; 34;
    104; 101; 97; 100; 101; 114; 34; 58; 32; 110; 117; 108; 108; 44; 10; 32;
    32; 32; 32; 34; 115; 99; 114; 101; 101; 110; 115; 104; 111; 116; 115;
    34; 58; 32; 91; 10; 32; 32; 32; 32; 32; 32; 34; 97; 34; 44; 10; 32; 32;
    32; 32; 32; 32; 49; 50; 44; 10; 32; 32; 32; 32; 32; 32; 45; 51; 44; 10;
    32; 32; 32; 32; 32; 32; 116; 114; 117; 101; 44; 10; 32; 32; 32; 32; 32;
    32; 91; 93; 44; 10; 32; 32; 32; 32; 32; 32; 123; 125; 44; 10; 32; 32;
    32; 32; 32; 32; 91; 10; 32; 32; 32; 32; 32; 32; 32; 32; 102; 97; 108;
    115; 101; 44; 10; 32; 32; 32; 32; 32; 32; 32; 32; 123; 10; 32; 32; 32;
    32; 32; 32; 32; 32; 32; 32; 34; 107; 34; 58; 32; 48; 10; 32; 32; 32; 32;
    32; 32; 32; 32; 125; 10; 32; 32; 32; 32; 32; 32; 93; 10; 32; 32; 32; 32;
    93; 10; 32; 32; 125; 10; 125 ]%N.
Proof. vm_compute. reflexivity. Qed.

(** The reader on text that no encoder of this file wrote: other
    spacing, and what is not one JSON value. *)
Example json_loads_spaced :
  json_loads (str "  [1, {}, [ ], null ,-7]  ")
  = Some (PList [PInt 1; PDict []; PList []; PNone; PInt (-7)]).
Proof. vm_compute. reflexivity. Qed.

Example json_loads_rejects :
  json_loads (str "[1 2]") = None /\ json_loads (str "[1,]") = None /\
  json_loads (str "{1: 2}") = None /\ json_loads (str "null null") = None.
Proof. vm_compute. done. Qed.

(** *** Reading back what the encoder writes *)

Ltac div_lia := zify; Z.to_euclidean_division_equations; lia.

Lemma pyval_nested_ind (P : pyval -> Prop) :
  P PNone -> (forall b, P (PBool b)) -> (forall z, P (PInt z)) ->
  (forall f, P (PFloat f)) -> (forall s, P (PStr s)) ->
  (forall l, Forall P l -> P (PList l)) ->
  (forall d, Forall (fun kv => P kv.2) d -> P (PDict d)) ->
  forall v, P v.
Proof.
  intros HNone HBool HInt HFloat HStr HList HDict.
  fix IH 1. intros [| b | z | f | s | l | d];
    [exact HNone | apply HBool | apply HInt | apply HFloat | apply HStr | |].
  - apply HList. induction l as [|x l IHl]; constructor; [apply IH | exact IHl].
  - apply HDict. induction d as [|[k x] d IHd]; constructor; [apply IH | exact IHd].
Qed.


Lemma hex_value_hex_digit (d : N) : (d < 16)%N -> hex_value (hex_digit d) = Some d.
Proof.
  intros Hd. unfold hex_value, hex_digit.
  destruct (N.ltb_spec d 10).
  - replace ((48 <=? 48 + d) && (48 + d <=? 57))%N with true
      by (symmetry; apply andb_true_iff; split; apply N.leb_le; lia).
    f_equal. lia.
  - replace ((48 <=? 87 + d) && (87 + d <=? 57))%N with false
      by (symmetry; apply andb_false_iff; right; apply N.leb_gt; lia).
    replace ((97 <=? 87 + d) && (87 + d <=? 102))%N with true
      by (symmetry; apply andb_true_iff; split; apply N.leb_le; lia).
    f_equal. lia.
Qed.

Lemma hex4_value (n : N) :
  (n < 65536)%N ->
  ((n / 4096 mod 16) * 4096 + (n / 256 mod 16) * 256 + (n / 16 mod 16) * 16
   + n mod 16 = n)%N.
Proof. intros H. div_lia. Qed.

Lemma parse_hex4_hex4 (n : N) :
  (n < 65536)%N ->
  parse_hex4 (hex_digit (n / 4096 mod 16)) (hex_digit (n / 256 mod 16))
    (hex_digit (n / 16 mod 16)) (hex_digit (n mod 16)) = Some n.
Proof.
  intros Hn. unfold parse_hex4.
  rewrite !hex_value_hex_digit by (apply N.mod_lt; lia).
  simpl. f_equal. by apply hex4_value.
Qed.

(** The two shapes of a [\u] escape. *)
Lemma parse_chars_u (a b c d : codepoint) (n : N) (t : pystr) :
  parse_hex4 a b c d = Some n -> is_high_surrogate n = false ->
  parse_chars (92 :: 117 :: a :: b :: c :: d :: t)%N
  = '(cs, r) ← parse_chars t; Some (n :: cs, r).
Proof.
  intros Hn Hhi. cbn [parse_chars]. change (92 =? 34)%N with false.
  change (92 =? 92)%N with true. change (117 =? 117)%N with true.
  cbn match. rewrite Hn.
  destruct t as [|x [|y [|a2 [|b2 [|c2 [|d2 t]]]]]];
    try (destruct (parse_chars _) as [[??]|]; reflexivity).
  unfold low_surrogate_after. rewrite Hhi. cbn [andb].
  destruct (parse_chars _) as [[??]|]; reflexivity.
Qed.

Lemma parse_chars_pair (a b c d a2 b2 c2 d2 : codepoint) (hi lo : N) (t : pystr) :
  parse_hex4 a b c d = Some hi -> is_high_surrogate hi = true ->
  parse_hex4 a2 b2 c2 d2 = Some lo -> is_low_surrogate lo = true ->
  parse_chars (92 :: 117 :: a :: b :: c :: d :: 92 :: 117 :: a2 :: b2 :: c2 :: d2 :: t)%N
  = '(cs, r) ← parse_chars t; Some (of_surrogates hi lo :: cs, r).
Proof.
  intros Hhi Hh Hlo Hl. cbn [parse_chars]. change (92 =? 34)%N with false.
  change (92 =? 92)%N with true. change (117 =? 117)%N with true.
  cbn match. rewrite Hhi. unfold low_surrogate_after.
  rewrite Hh. change (92 =? 92)%N with true. change (117 =? 117)%N with true.
  cbn [andb]. rewrite Hlo. cbn [mbind option_bind]. rewrite Hl.
  destruct (parse_chars t) as [[??]|]; reflexivity.
Qed.

Lemma parse_chars_literal (c : codepoint) (t : pystr) :
  (c =? 34)%N = false -> (c =? 92)%N = false -> (c <? 32)%N = false ->
  parse_chars (c :: t) = '(cs, r) ← parse_chars t; Some (c :: cs, r).
Proof.
  intros H1 H2 H3. cbn [parse_chars]. rewrite H1, H2, H3.
  destruct (parse_chars t) as [[??]|]; reflexivity.
Qed.

Lemma parse_chars_short (e ch : codepoint) (t : pystr) :
  (e =? 117)%N = false -> unescape e = Some ch ->
  parse_chars (92 :: e :: t)%N = '(cs, r) ← parse_chars t; Some (ch :: cs, r).
Proof.
  intros H1 H2. cbn [parse_chars]. change (92 =? 34)%N with false.
  change (92 =? 92)%N with true. cbn match. rewrite H1, H2.
  destruct (parse_chars t) as [[??]|]; reflexivity.
Qed.

Lemma lor_shifted (k q : N) :
  (q < 1024)%N -> (N.lor (N.shiftl k 10) q = k * 1024 + q)%N.
Proof.
  intros Hq.
  assert (Hland : N.land (N.shiftl k 10) q = 0%N).
  { apply N.bits_inj_0. intros i. rewrite N.land_spec.
    destruct (N.ltb_spec i 10) as [Hi|Hi].
    - by rewrite N.shiftl_spec_low.
    - rewrite (N.bits_above_log2 q i), andb_false_r; [done|].
      destruct (N.eq_dec q 0%N) as [->|Hz]; [simpl; lia|].
      apply N.log2_lt_pow2; [lia|].
      apply N.lt_le_trans with (2 ^ 10)%N; [done | apply N.pow_le_mono_r; lia]. }
  rewrite <- N.lxor_lor, <- N.add_nocarry_lxor by done.
  by rewrite N.shiftl_mul_pow2.
Qed.

Lemma high_half (n : N) :
  (n < 1048576)%N ->
  (N.lor 55296 (N.land (N.shiftr n 10) 1023) = 55296 + n / 1024)%N.
Proof.
  intros Hn. change 1023%N with (N.ones 10).
  rewrite N.land_ones, N.shiftr_div_pow2. change (2 ^ 10)%N with 1024%N.
  assert (Hq : (n / 1024 < 1024)%N) by div_lia.
  rewrite N.mod_small by done.
  change 55296%N with (N.shiftl 54 10) at 1. by rewrite lor_shifted.
Qed.

Lemma low_half (n : N) :
  (N.lor 56320 (N.land n 1023) = 56320 + n mod 1024)%N.
Proof.
  change 1023%N with (N.ones 10). rewrite N.land_ones. change (2 ^ 10)%N with 1024%N.
  change 56320%N with (N.shiftl 55 10) at 1.
  by rewrite lor_shifted by (apply N.mod_lt; lia).
Qed.

Lemma parse_chars_escape_char (c : codepoint) (t : pystr) :
  is_scalar c = true ->
  parse_chars (escape_char c ++ t) = '(cs, r) ← parse_chars t; Some (c :: cs, r).
Proof.
  unfold is_scalar, is_surrogate. intros [Hmax Hsur]%andb_true_iff.
  apply N.ltb_lt in Hmax. apply negb_true_iff in Hsur.
  unfold escape_char.
  destruct (N.eqb_spec c 34) as [->|H34]; [by apply parse_chars_short|].
  destruct (N.eqb_spec c 92) as [->|H92]; [by apply parse_chars_short|].
  destruct (N.eqb_spec c 10) as [->|H10]; [by apply parse_chars_short|].
  destruct (N.eqb_spec c 13) as [->|H13]; [by apply parse_chars_short|].
  destruct (N.eqb_spec c 9) as [->|H9]; [by apply parse_chars_short|].
  destruct (N.eqb_spec c 12) as [->|H12]; [by apply parse_chars_short|].
  destruct (N.eqb_spec c 8) as [->|H8]; [by apply parse_chars_short|].
  destruct ((32 <=? c) && (c <=? 126))%N eqn:Hp.
  { apply andb_true_iff in Hp as [Hlo%N.leb_le Hhi%N.leb_le].
    apply parse_chars_literal; [by apply N.eqb_neq..|by apply N.ltb_ge]. }
  destruct (N.ltb_spec c 65536) as [Hbmp|Hsup].
  - apply parse_chars_u; [by apply parse_hex4_hex4|].
    unfold is_high_surrogate. apply andb_false_iff.
    apply andb_false_iff in Hsur as [H|H]; [by left|].
    right. apply N.leb_gt. apply N.leb_gt in H. lia.
  - unfold backslash_u, hex4. rewrite <- !app_comm_cons. cbn [app].
    rewrite high_half, low_half by lia.
    set (n := (c - 65536)%N).
    assert (Hc : (65536 + n / 1024 * 1024 + n mod 1024 = c)%N) by (subst n; div_lia).
    assert (Hr : (n mod 1024 < 1024)%N) by (apply N.mod_lt; lia).
    assert (Hq : (n / 1024 < 1024)%N) by (subst n; div_lia).
    clearbody n. revert Hc Hr Hq. generalize (n / 1024)%N (n mod 1024)%N.
    intros q r Hc Hr Hq.
    rewrite (parse_chars_pair _ _ _ _ _ _ _ _ (55296 + q) (56320 + r));
      [|apply parse_hex4_hex4; lia
       |unfold is_high_surrogate; apply andb_true_iff; split; apply N.leb_le; lia
       |apply parse_hex4_hex4; lia
       |unfold is_low_surrogate; apply andb_true_iff; split; apply N.leb_le; lia].
    replace (of_surrogates (55296 + q) (56320 + r)) with c; [done|].
    unfold of_surrogates. lia.
Qed.

Lemma parse_chars_encoded (s rest : pystr) :
  forallb is_scalar s = true ->
  parse_chars (flat_map escape_char s ++ 34%N :: rest) = Some (s, rest).
Proof.
  induction s as [|c s IH]; [done|]. intros [Hc Hs]%andb_true_iff.
  cbn [flat_map]. rewrite <- app_assoc, parse_chars_escape_char by done.
  by rewrite IH.
Qed.

Lemma parse_value_str (fuel : nat) (s rest : pystr) :
  forallb is_scalar s = true ->
  parse_value (S fuel) (encode_str s ++ rest) = Some (PStr s, rest).
Proof.
  intros Hs. unfold encode_str. rewrite <- app_comm_cons, <- app_assoc.
  cbn [app parse_value]. change (34 =? 34)%N with true.
  cbn match. by rewrite (parse_chars_encoded s rest Hs).
Qed.

Lemma unstr_str (s : string) : unstr (str s) = s.
Proof.
  unfold unstr, str. rewrite List.map_map.
  rewrite (List.map_ext _ id) by apply ascii_N_embedding.
  by rewrite List.map_id, string_of_list_ascii_of_string.
Qed.

Lemma str_String (a : ascii) (s : string) : str (String a s) = N_of_ascii a :: str s.
Proof. reflexivity. Qed.

Lemma uint_chars (d : Decimal.uint) :
  Forall (fun c => is_int_char c = true) (str (NilEmpty.string_of_uint d)).
Proof.
  induction d; cbn [NilEmpty.string_of_uint]; rewrite ?str_String;
    by constructor.
Qed.

Lemma int_repr_chars (z : Z) : Forall (fun c => is_int_char c = true) (int_repr z).
Proof.
  assert (Hu : forall d, Forall (fun c => is_int_char c = true)
                           (str (NilZero.string_of_uint d))).
  { intros d. pose proof (uint_chars d) as H.
    destruct d; first [exact H | by repeat constructor]. }
  unfold int_repr. destruct (Z.to_int z) as [d|d]; cbn [NilZero.string_of_int].
  - apply Hu.
  - rewrite str_String. by constructor.
Qed.

Lemma int_repr_nonempty (z : Z) : int_repr z <> [].
Proof.
  unfold int_repr. destruct (Z.to_int z) as [d|d]; cbn [NilZero.string_of_int].
  - by destruct d.
  - by rewrite str_String.
Qed.

Lemma parse_int_repr (z : Z) : parse_int (int_repr z) = Some z.
Proof.
  unfold parse_int, int_repr. rewrite unstr_str, NilZero.isi.
  - cbn [fmap option_fmap option_map]. by rewrite DecimalZ.of_to.
  - destruct z as [|p|p]; cbn [Z.to_int]; [done| |done].
    intros [= H]. by apply (Unsigned.to_uint_nonnil p).
  - destruct z as [|p|p]; cbn [Z.to_int]; [done|done|].
    intros [= H]. by apply (Unsigned.to_uint_nonnil p).
Qed.

Lemma is_int_char_range (c : codepoint) :
  is_int_char c = true -> (48 <= c <= 57 \/ c = 45)%N.
Proof.
  unfold is_int_char. intros [[H1%N.leb_le H2%N.leb_le]%andb_true_iff|H%N.eqb_eq]%orb_true_iff;
    [by left | by right].
Qed.

Lemma parse_value_number (fuel : nat) (c : codepoint) (s : pystr) :
  is_int_char c = true ->
  parse_value (S fuel) (c :: s)
  = z ← parse_int (take_while is_int_char (c :: s));
    Some (PInt z, drop_while is_int_char (c :: s)).
Proof.
  intros Hc%is_int_char_range. cbn [parse_value].
  destruct (N.eqb_spec c 34); [lia|]. destruct (N.eqb_spec c 91); [lia|].
  destruct (N.eqb_spec c 123); [lia|].
  change (str "null") with [110; 117; 108; 108]%N.
  change (str "true") with [116; 114; 117; 101]%N.
  change (str "false") with [102; 97; 108; 115; 101]%N.
  cbn [after_prefix].
  destruct (N.eqb_spec 110 c); [lia|]. destruct (N.eqb_spec 116 c); [lia|].
  destruct (N.eqb_spec 102 c); [lia|]. done.
Qed.

Lemma parse_value_int (fuel : nat) (z : Z) (rest : pystr) :
  ends_token rest ->
  parse_value (S fuel) (int_repr z ++ rest) = Some (PInt z, rest).
Proof.
  intros Hrest. pose proof (int_repr_chars z) as Hall.
  pose proof (int_repr_nonempty z) as Hne. pose proof (parse_int_repr z) as Hz.
  destruct (int_repr z) as [|c t]; [done|].
  rewrite <- app_comm_cons, parse_value_number by (by inversion Hall).
  rewrite app_comm_cons, take_while_app, drop_while_app by done.
  by rewrite Hz.
Qed.

Lemma parse_value_null (fuel : nat) (rest : pystr) :
  parse_value (S fuel) (str "null" ++ rest) = Some (PNone, rest).
Proof. reflexivity. Qed.

Lemma parse_value_true (fuel : nat) (rest : pystr) :
  parse_value (S fuel) (str "true" ++ rest) = Some (PBool true, rest).
Proof. reflexivity. Qed.

Lemma parse_value_false (fuel : nat) (rest : pystr) :
  parse_value (S fuel) (str "false" ++ rest) = Some (PBool false, rest).
Proof. reflexivity. Qed.

(** *** Whitespace and the first character of a value *)

Lemma skip_ws_indent (level : nat) (t : pystr) :
  skip_ws (newline_indent level ++ t) = skip_ws t.
Proof.
  unfold newline_indent, skip_ws. cbn [app drop_while].
  change (is_ws 10) with true. cbn match.
  induction (2 * level)%nat as [|n IH]; [done|].
  cbn [repeat app drop_while]. by change (is_ws 32) with true.
Qed.

Lemma json_encode_head (E : env) (level : nat) (v : pyval) :
  plain v = true ->
  exists c t, json_encode E level v = c :: t /\ opens_value c = true.
Proof.
  destruct v as [| [|] | z | f | s | l | d]; intros Hv; try done.
  - by exists 110%N, (str "ull").
  - by exists 116%N, (str "rue").
  - by exists 102%N, (str "alse").
  - cbn [json_encode]. pose proof (int_repr_chars z) as Hall.
    pose proof (int_repr_nonempty z) as Hne.
    destruct (int_repr z) as [|c t]; [done|]. exists c, t. split; [done|].
    inversion Hall as [|?? Hc%is_int_char_range _]; subst.
    unfold opens_value, is_ws.
    destruct (N.eqb_spec c 32); [lia|]. destruct (N.eqb_spec c 10); [lia|].
    destruct (N.eqb_spec c 13); [lia|]. destruct (N.eqb_spec c 9); [lia|].
    destruct (N.eqb_spec c 93); [lia|]. destruct (N.eqb_spec c 125); [lia|]. done.
  - by eexists 34%N, _.
  - cbn [json_encode]. unfold encode_block.
    destruct (List.map _ l); by eexists 91%N, _.
  - cbn [json_encode]. unfold encode_block.
    destruct (List.map _ d); by eexists 123%N, _.
Qed.

Lemma skip_ws_opens (c : codepoint) (t : pystr) :
  opens_value c = true -> skip_ws (c :: t) = c :: t.
Proof.
  unfold opens_value, skip_ws. intros [[H _]%andb_true_iff _]%andb_true_iff.
  apply negb_true_iff in H. cbn [drop_while]. by rewrite H.
Qed.

(** *** Containers *)

Lemma parse_value_bracket (fuel : nat) (s : pystr) :
  parse_value (S fuel) (91%N :: s)
  = match skip_ws s with
    | [] => None
    | c1 :: r1 =>
        if (c1 =? 93)%N then Some (PList [], r1)
        else '(l, r) ← parse_elements fuel (c1 :: r1); Some (PList l, r)
    end.
Proof. reflexivity. Qed.

Lemma parse_value_brace (fuel : nat) (s : pystr) :
  parse_value (S fuel) (123%N :: s)
  = match skip_ws s with
    | [] => None
    | c1 :: r1 =>
        if (c1 =? 125)%N then Some (PDict [], r1)
        else '(d, r) ← parse_members fuel (c1 :: r1); Some (PDict d, r)
    end.
Proof. reflexivity. Qed.

Lemma parse_elements_step (fuel : nat) (s : pystr) :
  parse_elements (S fuel) s
  = '(v, r) ← parse_value fuel s;
    match skip_ws r with
    | [] => None
    | c :: r1 =>
        if (c =? 44)%N then
          '(vs, r2) ← parse_elements fuel (skip_ws r1); Some (v :: vs, r2)
        else if (c =? 93)%N then Some ([v], r1)
        else None
    end.
Proof. reflexivity. Qed.

Lemma parse_members_step (fuel : nat) (s : pystr) :
  parse_members (S fuel) (34%N :: s)
  = '(k, r) ← parse_chars s;
    match skip_ws r with
    | [] => None
    | c1 :: r1 =>
        if (c1 =? 58)%N then
          '(v, r2) ← parse_value fuel (skip_ws r1);
          match skip_ws r2 with
          | [] => None
          | c2 :: r3 =>
              if (c2 =? 44)%N then
                '(d, r4) ← parse_members fuel (skip_ws r3);
                Some ((k, v) :: d, r4)
              else if (c2 =? 125)%N then Some ([(k, v)], r3)
              else None
          end
        else None
    end.
Proof. reflexivity. Qed.

Lemma skip_ws_value (E : env) (n level : nat) (v : pyval) (t : pystr) :
  plain v = true ->
  skip_ws (newline_indent n ++ json_encode E level v ++ t) = json_encode E level v ++ t.
Proof.
  intros Hv. rewrite skip_ws_indent.
  destruct (json_encode_head E level v Hv) as (c & s & -> & Hc).
  rewrite <- app_comm_cons. by apply skip_ws_opens.
Qed.

Lemma ends_token_indent (n : nat) (t : pystr) : ends_token (newline_indent n ++ t).
Proof. reflexivity. Qed.

Lemma join_cons2 (sep x y : pystr) (l : list pystr) :
  join sep (x :: y :: l) = x ++ sep ++ join sep (y :: l).
Proof. reflexivity. Qed.

Lemma skip_ws_join (n : nat) (sep t : pystr) (c : codepoint) (s : pystr)
    (chunks : list pystr) :
  opens_value c = true ->
  skip_ws (newline_indent n ++ join sep ((c :: s) :: chunks) ++ t)
  = join sep ((c :: s) :: chunks) ++ t.
Proof.
  intros Hc. rewrite skip_ws_indent.
  destruct chunks as [|y chunks]; [cbn [join]|rewrite join_cons2];
    rewrite <- ?app_comm_cons; by apply skip_ws_opens.
Qed.

Lemma skip_ws_elements (E : env) (n level : nat) (sep t : pystr) (y : pyval)
    (l : list pyval) :
  plain y = true ->
  skip_ws (newline_indent n ++ join sep (List.map (json_encode E level) (y :: l)) ++ t)
  = join sep (List.map (json_encode E level) (y :: l)) ++ t.
Proof.
  intros Hy. rewrite List.map_cons.
  destruct (json_encode_head E level y Hy) as (c & s & -> & Hc).
  by apply skip_ws_join.
Qed.

Lemma parse_elements_encoded (E : env) (level : nat) (l : list pyval) :
  Forall (reads_back E) l -> forallb plain l = true -> l <> [] ->
  forall fuel rest,
    length (join (str "," ++ newline_indent (S level))
              (List.map (json_encode E (S level)) l)) + 2 <= fuel ->
    parse_elements fuel
      (join (str "," ++ newline_indent (S level)) (List.map (json_encode E (S level)) l)
       ++ newline_indent level ++ 93%N :: rest)
    = Some (l, rest).
Proof.
  induction 1 as [|x l Hx Hl IH]; [done|]. intros [Hpx Hpl]%andb_true_iff _ fuel rest.
  destruct l as [|y l].
  - cbn [List.map join]. intros Hfuel.
    destruct fuel as [|fuel]; [lia|]. rewrite parse_elements_step.
    rewrite Hx by (by apply ends_token_indent || lia).
    cbn [mbind option_bind]. by rewrite skip_ws_indent.
  - rewrite !List.map_cons, join_cons2, <- !List.map_cons. intros Hfuel.
    rewrite !length_app in Hfuel.
    pose proof (eq_refl : length (str ",") = 1) as Hsep.
    destruct fuel as [|fuel]; [lia|]. rewrite parse_elements_step.
    rewrite <- !app_assoc. rewrite Hx by (reflexivity || lia).
    cbn [mbind option_bind]. change (str ",") with [44%N]. cbn [app].
    cbn [skip_ws drop_while]. change (is_ws 44) with false. cbn match.
    change (44 =? 44)%N with true. cbn match.
    change (drop_while is_ws) with skip_ws.
    rewrite skip_ws_elements by (by apply andb_true_iff in Hpl as [? _]).
    rewrite IH; [done|done|done|lia].
Qed.

Lemma skip_ws_space (t : pystr) : skip_ws (32%N :: t) = skip_ws t.
Proof. reflexivity. Qed.

Lemma skip_ws_key (n : nat) (sep t t' k : pystr) (chunks : list pystr) :
  skip_ws (newline_indent n ++ join sep ((encode_str k ++ t) :: chunks) ++ t')
  = join sep ((encode_str k ++ t) :: chunks) ++ t'.
Proof.
  unfold encode_str. rewrite <- app_comm_cons. by apply skip_ws_join.
Qed.

Lemma parse_members_encoded (E : env) (level : nat) (d : list (pystr * pyval)) :
  Forall (fun kv => reads_back E kv.2) d ->
  forallb (fun kv => let '(k, x) := kv in forallb is_scalar k && plain x) d = true ->
  d <> [] ->
  forall fuel rest,
    length (join (str "," ++ newline_indent (S level))
              (List.map (member_text E level) d)) + 2 <= fuel ->
    parse_members fuel
      (join (str "," ++ newline_indent (S level)) (List.map (member_text E level) d)
       ++ newline_indent level ++ 125%N :: rest)
    = Some (d, rest).
Proof.
  induction 1 as [|[k x] d Hx Hd IH]; [done|].
  intros [[Hk Hpx]%andb_true_iff Hpd]%andb_true_iff _ fuel rest. cbn [snd] in Hx.
  assert (Hvalue : forall fuel t,
            length (json_encode E (S level) x) < fuel -> ends_token t ->
            parse_members (S fuel) (member_text E level (k, x) ++ t)
            = match skip_ws t with
              | [] => None
              | c2 :: r3 =>
                  if (c2 =? 44)%N then
                    '(d, r4) ← parse_members fuel (skip_ws r3);
                    Some ((k, x) :: d, r4)
                  else if (c2 =? 125)%N then Some ([(k, x)], r3)
                  else None
              end).
  { intros f t Hf Ht. unfold member_text, encode_str.
    rewrite <- !app_comm_cons, <- !app_assoc, parse_members_step. cbn [app].
    rewrite parse_chars_encoded by done. cbn [mbind option_bind].
    change (str ": ") with [58; 32]%N. cbn [app skip_ws drop_while].
    change (is_ws 58) with false. cbn match. change (58 =? 58)%N with true.
    cbn match.
    destruct (json_encode_head E (S level) x Hpx) as (c & s & Hc & Hopen).
    rewrite skip_ws_space.
    rewrite Hc, <- app_comm_cons, (skip_ws_opens c _ Hopen), app_comm_cons, <- Hc.
    by rewrite Hx. }
  destruct d as [|[k' x'] d].
  - cbn [List.map join]. intros Hfuel.
    destruct fuel as [|fuel]; [lia|].
    rewrite Hvalue; [|unfold member_text in Hfuel; rewrite !length_app in Hfuel; lia
                     |apply ends_token_indent].
    by rewrite skip_ws_indent.
  - rewrite !List.map_cons, join_cons2, <- !List.map_cons. intros Hfuel.
    rewrite !length_app in Hfuel.
    pose proof (eq_refl : length (str ",") = 1) as Hsep.
    destruct fuel as [|fuel]; [lia|]. rewrite <- !app_assoc.
    rewrite Hvalue; [|unfold member_text in Hfuel; rewrite !length_app in Hfuel; lia
                     |reflexivity].
    change (str ",") with [44%N]. cbn [app skip_ws drop_while].
    change (is_ws 44) with false. cbn match. change (44 =? 44)%N with true. cbn match.
    change (drop_while is_ws) with skip_ws.
    rewrite List.map_cons. unfold member_text at 1.
    rewrite skip_ws_key.
    change (encode_str k' ++ str ": " ++ json_encode E (S level) x')
      with (member_text E level (k', x')).
    rewrite <- List.map_cons, IH; [done|done|done|lia].
Qed.

Lemma join_opens (sep t : pystr) (c : codepoint) (s : pystr) (chunks : list pystr) :
  exists s', join sep ((c :: s) :: chunks) ++ t = c :: s'.
Proof.
  destruct chunks as [|y chunks]; [cbn [join]|rewrite join_cons2];
    rewrite <- app_comm_cons; by eexists.
Qed.

Lemma opens_value_not_closing (c : codepoint) :
  opens_value c = true -> (c =? 93)%N = false /\ (c =? 125)%N = false.
Proof.
  unfold opens_value.
  intros [[_ H1%negb_true_iff]%andb_true_iff H2%negb_true_iff]%andb_true_iff. done.
Qed.

Lemma elements_open (E : env) (level : nat) (sep t : pystr) (x : pyval)
    (l : list pyval) :
  plain x = true ->
  exists c s', join sep (List.map (json_encode E level) (x :: l)) ++ t = c :: s'
               /\ opens_value c = true.
Proof.
  intros Hx. rewrite List.map_cons.
  destruct (json_encode_head E level x Hx) as (c & s & -> & Hc).
  destruct (join_opens sep t c s (List.map (json_encode E level) l)) as [s' ->].
  by exists c, s'.
Qed.

Lemma members_open (E : env) (level : nat) (sep t k : pystr) (x : pyval)
    (d : list (pystr * pyval)) :
  exists s', join sep (List.map (member_text E level) ((k, x) :: d)) ++ t = 34%N :: s'.
Proof.
  rewrite List.map_cons. unfold member_text at 1, encode_str.
  rewrite <- app_comm_cons. apply join_opens.
Qed.

Lemma skip_ws_members (E : env) (n level : nat) (sep t k : pystr) (x : pyval)
    (d : list (pystr * pyval)) :
  skip_ws (newline_indent n ++ join sep (List.map (member_text E level) ((k, x) :: d)) ++ t)
  = join sep (List.map (member_text E level) ((k, x) :: d)) ++ t.
Proof. rewrite List.map_cons. unfold member_text at 1 3. apply skip_ws_key. Qed.

Lemma json_encode_reads_back (E : env) (v : pyval) : plain v = true -> reads_back E v.
Proof.
  induction v as [| b | z | f | s | l IHl | d IHd] using pyval_nested_ind;
    intros Hv level fuel rest Hfuel Hrest; try done;
    (destruct fuel as [|fuel]; [lia|]).
  - apply parse_value_null.
  - destruct b; [apply parse_value_true | apply parse_value_false].
  - by apply parse_value_int.
  - by apply parse_value_str.
  - cbn [plain] in Hv. cbn [json_encode] in *.
    assert (Hall : Forall (reads_back E) l).
    { apply Forall_forall. intros x Hx.
      apply (proj1 (Forall_forall _ _) IHl x Hx).
      apply (proj1 (forallb_forall _ _) Hv). by apply list_elem_of_In. }
    destruct l as [|x l]; [reflexivity|].
    unfold encode_block in *. rewrite List.map_cons in Hfuel |- *.
    rewrite <- List.map_cons in Hfuel |- *.
    change (str "[") with [91%N] in *. change (str "]") with [93%N] in *.
    rewrite !length_app in Hfuel. cbn [length] in Hfuel.
    rewrite <- !app_assoc. cbn [app]. rewrite parse_value_bracket.
    pose proof Hv as [Hx _]%andb_true_iff.
    rewrite skip_ws_elements by done.
    destruct (elements_open E (S level) (str "," ++ newline_indent (S level))
                (newline_indent level ++ 93%N :: rest) x l Hx)
      as (c & s' & Htext & [Hc _]%opens_value_not_closing).
    rewrite Htext, Hc, <- Htext.
    by rewrite parse_elements_encoded by (done || lia).
  - cbn [plain] in Hv. cbn [json_encode] in *.
    change (fun kv : pystr * pyval =>
              let '(k, x) := kv in encode_str k ++ str ": " ++ json_encode E (S level) x)
      with (member_text E level) in *.
    destruct d as [|[k x] d]; [reflexivity|].
    unfold encode_block in *. rewrite List.map_cons in Hfuel |- *.
    rewrite <- List.map_cons in Hfuel |- *.
    change (str "{") with [123%N] in *. change (str "}") with [125%N] in *.
    rewrite !length_app in Hfuel. cbn [length] in Hfuel.
    rewrite <- !app_assoc. cbn [app]. rewrite parse_value_brace.
    rewrite skip_ws_members.
    destruct (members_open E level (str "," ++ newline_indent (S level))
                (newline_indent level ++ 125%N :: rest) k x d) as [s' Htext].
    rewrite Htext. change (34 =? 125)%N with false. cbn match. rewrite <- Htext.
    rewrite parse_members_encoded; [done| |done|done|lia].
    + apply Forall_forall. intros [k' x'] Hx.
      apply (proj1 (Forall_forall _ _) IHd _ Hx).
      apply list_elem_of_In in Hx.
      pose proof (proj1 (forallb_forall _ _) Hv _ Hx) as H. cbn beta iota in H.
      by apply andb_true_iff in H as [_ H].
Qed.

Lemma skip_ws_plain (E : env) (v : pyval) (t : pystr) :
  plain v = true -> skip_ws (json_encode E 0 v ++ t) = json_encode E 0 v ++ t.
Proof.
  intros Hv. destruct (json_encode_head E 0 v Hv) as (c & s & -> & Hc).
  rewrite <- app_comm_cons. by apply skip_ws_opens.
Qed.

Lemma json_loads_dumps (E : env) (p : pyval) :
  plain p = true -> json_loads (json_dumps E p) = Some p.
Proof.
  intros Hp. unfold json_loads, json_dumps.
  rewrite <- (app_nil_r (json_encode E 0 p)) at 2.
  rewrite skip_ws_plain by done.
  rewrite (json_encode_reads_back E p Hp 0); [done|lia|done].
Qed.

(** *** Payloads without floats *)

Lemma in_ranges_scalar (tbl : list (N * N)) (c : codepoint) :
  forallb (fun r => (snd r <? 55296) || (57343 <? fst r) && (snd r <? 1114112))%N tbl
  = true ->
  in_ranges tbl c = true -> is_scalar c = true.
Proof.
  unfold in_ranges. intros Htbl (r & Hr & [Hlo%N.leb_le Hhi%N.leb_le]%andb_true_iff)%existsb_exists.
  pose proof (proj1 (forallb_forall _ _) Htbl r Hr) as H. cbn beta in H.
  unfold is_scalar, is_surrogate.
  apply orb_true_iff in H as [H%N.ltb_lt|[H1%N.ltb_lt H2%N.ltb_lt]%andb_true_iff].
  - apply andb_true_iff. split; [apply N.ltb_lt; lia|].
    apply negb_true_iff, andb_false_iff. left. apply N.leb_gt. lia.
  - apply andb_true_iff. split; [apply N.ltb_lt; lia|].
    apply negb_true_iff, andb_false_iff. right. apply N.leb_gt. lia.
Qed.

Lemma isdecimal_scalar (c : codepoint) : isdecimal c = true -> is_scalar c = true.
Proof. apply in_ranges_scalar. vm_compute. reflexivity. Qed.

Lemma dict_lookup_plain (k : pystr) (d : list (pystr * pyval)) (v : pyval) :
  plain (PDict d) = true -> dict_lookup k d = Some v -> plain v = true.
Proof.
  induction d as [|[k' x] d IH]; [done|]. cbn [plain forallb dict_lookup].
  intros [[_ Hx]%andb_true_iff Hd]%andb_true_iff.
  destruct (decide (k = k')); [by intros [= <-] | by apply IH].
Qed.

Lemma py_get_plain (c : pyval) (k : pystr) (default v : pyval) :
  plain c = true -> plain default = true -> py_get c k default = Return v ->
  plain v = true.
Proof.
  destruct c as [| | | | | |d]; try done. intros Hd Hdef [= <-].
  destruct (dict_lookup k d) as [x|] eqn:Hx; [|done].
  by apply (dict_lookup_plain k d).
Qed.

Lemma py_iter_plain (c : pyval) (items : list pyval) :
  plain c = true -> py_iter c = Return items -> forallb plain items = true.
Proof.
  destruct c as [| | | |s|l|d]; try done; cbn [plain py_iter]; intros Hc [= <-].
  - induction s as [|ch s IH]; [done|].
    apply andb_true_iff in Hc as [Hch Hs]. cbn [List.map forallb plain].
    by rewrite Hch, IH.
  - done.
  - induction d as [|[k x] d IH]; [done|].
    apply andb_true_iff in Hc as [[Hk _]%andb_true_iff Hd].
    cbn [List.map forallb plain fst]. by rewrite Hk, IH.
Qed.

Lemma path_full_of_plain (items vs : list pyval) :
  forallb plain items = true -> path_full_of items = Return vs ->
  forallb plain vs = true.
Proof.
  revert vs. induction items as [|s items IH]; intros vs; [by intros _ [= <-]|].
  intros [Hs Hitems]%andb_true_iff. cbn [path_full_of].
  destruct (str_in (str "path_full") s) as [[|]|e] eqn:Hin;
    cbn [mbind result_bind]; [|by apply IH|done].
  destruct (py_getitem s (str "path_full")) as [v|e] eqn:Hv;
    cbn [mbind result_bind]; [|done].
  destruct (path_full_of items) as [vs'|e]; cbn [mbind result_bind mret result_ret]; [|done].
  intros [= <-]. cbn [forallb]. rewrite (IH vs') by done.
  destruct s as [| | | | | |d]; try done. cbn [py_getitem] in Hv.
  destruct (dict_lookup (str "path_full") d) as [x|] eqn:Hx; [|done].
  injection Hv as <-. by rewrite (dict_lookup_plain _ _ _ Hs Hx).
Qed.

Lemma build_payload_plain (app_id url game payload : pyval) :
  plain app_id = true -> plain url = true -> plain game = true ->
  build_payload app_id url game = Return payload -> plain payload = true.
Proof.
  intros Ha Hu Hg. unfold build_payload.
  destruct game as [| | | | | |d]; try done.
  cbn [py_get mbind result_bind].
  set (field := default_or (dict_lookup (str "screenshots") d) (PList [])).
  assert (Hfield : plain field = true).
  { subst field. destruct (dict_lookup _ d) as [x|] eqn:Hx; [|done].
    by apply (dict_lookup_plain _ d _ Hg Hx). }
  assert (Hshots : forall shots,
            except_TypeError (items ← py_iter field; path_full_of items) (Return [])
            = Return shots -> forallb plain shots = true).
  { intros shots. destruct (py_iter field) as [items|e] eqn:Hi; cbn [mbind result_bind].
    - pose proof (py_iter_plain _ _ Hfield Hi) as Hitems.
      destruct (path_full_of items) as [vs|e] eqn:Hp; cbn [except_TypeError].
      + intros [= <-]. by apply (path_full_of_plain items).
      + destruct e; try done. by intros [= <-].
    - destruct e; try done. by intros [= <-]. }
  destruct (except_TypeError _ _) as [shots|e]; cbn [mbind result_bind]; [|done].
  intros [= <-]. cbn [plain forallb].
  rewrite Ha, Hu, (Hshots shots eq_refl).
  assert (Hname : plain (default_or (dict_lookup (str "name") d) (PStr (str "Unknown")))
                  = true).
  { destruct (dict_lookup (str "name") d) as [x|] eqn:Hx; [|reflexivity].
    by apply (dict_lookup_plain _ d _ Hg Hx). }
  assert (Hheader : plain (default_or (dict_lookup (str "header_image") d) PNone) = true).
  { destruct (dict_lookup (str "header_image") d) as [x|] eqn:Hx; [|reflexivity].
    by apply (dict_lookup_plain _ d _ Hg Hx). }
  by rewrite Hname, Hheader.
Qed.

Lemma app_id_plain (url : pyval) (app_id : pystr) :
  extract_app_id url = Return app_id -> plain (PStr app_id) = true.
Proof.
  intros [_ Hall]%extract_app_id_digits. cbn [plain].
  apply forallb_forall. intros c Hc%list_elem_of_In.
  apply isdecimal_scalar. by apply (proj1 (Forall_forall _ _) Hall).
Qed.

(** C9. The serialization of every payload lists its fields in one
    fixed order: [app_id], [name], [source], then [images] with
    [header] and [screenshots], each followed by the text of its value;
    the text of every value without floats reads back as that value;
    and the file written for a successfully processed item holds
    exactly the text of its payload, which, the URL and the product
    record being without floats, reads back as the object with the
    fields [app_id], [name], [source] and [images] in this order and
    the payload's values. *)
Theorem artifact_field_order (E : env) (url : pyval) (app_id : pystr)
    (game : list (pystr * pyval)) (w : world) :
  extract_app_id url = Return app_id ->
  fetch_steam_data E app_id = Return (PDict game) ->
  open_error E (file_path_of app_id) = None ->
  (forall a n u h s,
      json_dumps E (payload_record a n u h s)
      = artifact_layout (json_encode E 1 a) (json_encode E 1 n) (json_encode E 1 u)
          (json_encode E 2 h) (json_encode E 2 (PList s))) /\
  (forall p, plain p = true -> json_loads (json_dumps E p) = Some p) /\
  exists screenshots text,
    build_payload (PStr app_id) url (PDict game)
    = Return (payload_record (PStr app_id) (name_of game) url (header_of game)
                screenshots) /\
    files (process_url E url w).2 !! file_path_of app_id = Some text /\
    text = artifact_layout (encode_str app_id) (json_encode E 1 (name_of game))
             (json_encode E 1 url) (json_encode E 2 (header_of game))
             (json_encode E 2 (PList screenshots)) /\
    (plain url = true -> plain (PDict game) = true ->
     json_loads text
     = Some (payload_record (PStr app_id) (name_of game) url (header_of game)
               screenshots)).
Proof.
  intros Hx Hf Ho. split; [apply json_dumps_record|].
  split; [apply json_loads_dumps|].
  destruct (process_url_success E url app_id game w Hx Hf Ho) as (shots & Hb & Hp).
  exists shots, (json_dumps E (payload_record (PStr app_id) (name_of game) url
                                 (header_of game) shots)).
  split; [done|]. split; [|split].
  - rewrite Hp. cbn [snd files add_line add_file]. by rewrite lookup_insert_eq.
  - apply json_dumps_record.
  - intros Hu Hg. apply json_loads_dumps.
    apply (build_payload_plain (PStr app_id) url (PDict game)); try done.
    by apply (app_id_plain url).
Qed.

Lemma artifact_field_order_witness :
  files (process_url say_hi_store (PStr (str "http://s/app/7")) empty_world).2
    !! file_path_of (str "7")
  = Some say_hi_artifact /\
  json_loads say_hi_artifact
  = Some (payload_record (PStr (str "7"))
            (PStr (str "Say " ++ [34%N] ++ str "hi" ++ [34; 32; 233]%N))
            (PStr (str "http://s/app/7")) (PStr (str "http://h.jpg"))
            [ PStr (str "http://s1.jpg") ]).
Proof.
  destruct (artifact_field_order say_hi_store (PStr (str "http://s/app/7")) (str "7")
              say_hi empty_world eq_refl eq_refl eq_refl)
    as (_ & _ & shots & text & Hb & Hfile & Htext & Hload).
  injection Hb as <-.
  assert (Heq : text = say_hi_artifact) by (rewrite Htext; vm_compute; reflexivity).
  rewrite Heq in Hfile, Hload. split; [exact Hfile|].
  exact (Hload eq_refl eq_refl).
Defined.

(** ** The reported image count *)

(** C6, as the code has it.  For a successfully processed item the
    console reports, after the start line and the saved line, a count
    that is 1 when the payload's header value is truthy (neither null
    nor an empty string, zero, false or an empty container) and 0
    otherwise, plus the number of screenshots; for Game X it is 3. *)
Theorem reported_image_count (E : env) (url : pyval) (app_id : pystr)
    (game : list (pystr * pyval)) (w : world) :
  extract_app_id url = Return app_id ->
  fetch_steam_data E app_id = Return (PDict game) ->
  open_error E (file_path_of app_id) = None ->
  (exists screenshots,
      build_payload (PStr app_id) url (PDict game)
      = Return (payload_record (PStr app_id) (name_of game) url (header_of game)
                  screenshots) /\
      console (process_url E url w).2
      = console w ++ [ Processing url;
                       Saved (file_path_of app_id);
                       Extracted ((if truthy (header_of game) then 1 else 0)
                                  + Z.of_nat (length screenshots)) ]) /\
  (build_payload (PStr app_id) url game_x ≫= image_count) = Return 3%Z.
Proof.
  intros Hx Hf Ho. split; [|done].
  destruct (process_url_success E url app_id game w Hx Hf Ho) as (shots & Hb & Hp).
  exists shots. split; [done|]. rewrite Hp.
  cbn [snd console add_line add_file]. by rewrite <- !app_assoc.
Qed.

Lemma reported_image_count_witness :
  console (process_url two_products (PStr (str "http://s/app/2")) empty_world).2
  = [ Processing (PStr (str "http://s/app/2"));
      Saved (str "output/app_2.json");
      Extracted 3 ].
Proof.
  destruct (reported_image_count two_products (PStr (str "http://s/app/2")) (str "2")
              [ (str "name", PStr (str "Game X"));
                (str "header_image", PStr (str "http://h.jpg"));
                (str "screenshots",
                 PList [ PDict [ (str "path_full", PStr (str "http://s1.jpg")) ];
                         PDict [ (str "id", PInt 2) ];
                         PDict [ (str "path_full", PStr (str "http://s3.jpg")) ] ]) ]
              empty_world eq_refl eq_refl eq_refl)
    as ((shots & Hb & Hc) & _).
  injection Hb as <-. exact Hc.
Defined.

(** C6, as stated, fails: a record whose header image field is present
    and holds the empty string gives a payload in which [header] is
    that string, not null, and the reported count is 0, the number of
    screenshots alone. *)
Lemma reported_image_count_counterexample :
  let E := answering (PDict [ (str "5", PDict [ (str "success", PBool true);
                                                (str "data",
                                                 PDict [ (str "name", PStr (str "G"));
                                                         (str "header_image", PStr []) ]) ]) ]) in
  let url := PStr (str "http://s/app/5") in
  prepared E url
  = Return (str "5", payload_record (PStr (str "5")) (PStr (str "G")) url (PStr []) []) /\
  console (process_url E url empty_world).2
  = [ Processing url; Saved (str "output/app_5.json"); Extracted 0 ].
Proof. split; reflexivity. Qed.


(** * Further properties of the code *)

(** ** Loading the input lines *)

Lemma drop_while_fix {A} (p : A -> bool) (l : list A) :
  match l with [] => True | x :: _ => p x = false end -> drop_while p l = l.
Proof. destruct l as [|x l]; simpl; [done|]. by intros ->. Qed.

(** What [strip] keeps, and the whitespace it cuts at the end. *)
Lemma py_strip_split (s : pystr) :
  exists ws, Forall (fun c => isspace c = true) ws /\
             drop_while isspace s = py_strip s ++ ws.
Proof.
  unfold py_strip. set (v := drop_while isspace s).
  exists (rev (take_while isspace (rev v))). split.
  - apply Forall_forall. intros c Hc%list_elem_of_In%in_rev%list_elem_of_In.
    pose proof (take_while_Forall isspace (rev v)) as H.
    by apply (proj1 (Forall_forall _ _) H).
  - rewrite <- rev_app_distr, take_drop_while. by rewrite rev_involutive.
Qed.

Lemma py_strip_ends (s : pystr) :
  match py_strip s with [] => True | c :: _ => isspace c = false end /\
  match rev (py_strip s) with [] => True | c :: _ => isspace c = false end.
Proof.
  split.
  - destruct (py_strip_split s) as (ws & _ & Hv).
    destruct (py_strip s) as [|c core]; [done|].
    by apply (drop_while_head isspace s c (core ++ ws)).
  - unfold py_strip. rewrite rev_involutive.
    destruct (drop_while isspace (rev (drop_while isspace s))) as [|c r] eqn:Hr; [done|].
    by apply (drop_while_head isspace _ c r Hr).
Qed.

Lemma py_strip_idem (s : pystr) : py_strip (py_strip s) = py_strip s.
Proof.
  destruct (py_strip_ends s) as [Hhead Hlast].
  unfold py_strip at 1. rewrite (drop_while_fix isspace (py_strip s)) by done.
  rewrite (drop_while_fix isspace (rev (py_strip s))) by done.
  apply rev_involutive.
Qed.

Lemma load_urls_cons (line : pystr) (lines : list pystr) :
  load_urls (line :: lines) =
  match py_strip line with
  | [] => load_urls lines
  | _ :: _ => py_strip line :: load_urls lines
  end.
Proof.
  unfold load_urls. cbn [List.filter].
  destruct (py_strip line) as [|c core] eqn:Hs; [done|].
  cbn [List.map]. by rewrite Hs.
Qed.

Lemma load_urls_app (a b : list pystr) :
  load_urls (a ++ b) = load_urls a ++ load_urls b.
Proof. unfold load_urls. by rewrite List.filter_app, List.map_app. Qed.

Lemma load_urls_Forall (lines : list pystr) :
  Forall (fun u => u <> [] /\ py_strip u = u /\
                   (exists line, line ∈ lines /\ u = py_strip line) /\
                   (forall c rest, u = c :: rest -> isspace c = false) /\
                   (forall c front, u = front ++ [c] -> isspace c = false))
         (load_urls lines).
Proof.
  induction lines as [|line lines IH]; [constructor|].
  rewrite load_urls_cons.
  assert (Forall (fun u => u <> [] /\ py_strip u = u /\
                 (exists l, l ∈ line :: lines /\ u = py_strip l) /\
                 (forall c rest, u = c :: rest -> isspace c = false) /\
                 (forall c front, u = front ++ [c] -> isspace c = false))
            (load_urls lines)) as IH'.
  { eapply Forall_impl; [exact IH|]. intros u (? & ? & (l & ? & ?) & ? & ?).
    repeat split; try done. exists l. split; [by right | done]. }
  destruct (py_strip line) as [|c core] eqn:Hs; [done|].
  constructor; [|done].
  destruct (py_strip_ends line) as [Hhead Hlast]. rewrite Hs in Hhead, Hlast.
  split; [done|]. split; [by rewrite <- Hs, py_strip_idem|].
  split; [exists line; split; [by left | done]|]. split.
  - by intros c' rest [= <- _].
  - intros c' front Hf. rewrite Hf, rev_app_distr in Hlast. done.
Qed.

(** X1. Every URL that [load_urls] returns is the stripped text of an
    input line: it is not empty, stripping it again changes nothing,
    and it neither starts nor ends with whitespace.  A blank line
    contributes nothing, wherever it stands. *)
Theorem load_urls_stripped (lines : list pystr) :
  Forall (fun u => u <> [] /\ py_strip u = u /\
                   (exists line, line ∈ lines /\ u = py_strip line) /\
                   (forall c rest, u = c :: rest -> isspace c = false) /\
                   (forall c front, u = front ++ [c] -> isspace c = false))
         (load_urls lines) /\
  (forall a blank b, Forall (fun c => isspace c = true) blank ->
                     load_urls (a ++ blank :: b) = load_urls (a ++ b)).
Proof.
  split; [apply load_urls_Forall|].
  intros a blank b Hb. rewrite !load_urls_app, load_urls_cons.
  by rewrite (proj2 (py_strip_nil blank) Hb).
Qed.

Lemma load_urls_stripped_witness :
  load_urls ([str "a"] ++ [32%N; 9%N; 10%N] :: [str "b"]) = load_urls ([str "a"] ++ [str "b"]).
Proof.
  apply (proj2 (load_urls_stripped []) [str "a"] [32%N; 9%N; 10%N] [str "b"]).
  repeat constructor.
Defined.

(** ** Extraction and whitespace *)

Lemma isspace_not_slash (c : codepoint) : isspace c = true -> (47 =? c)%N = false.
Proof. intros H. destruct (N.eqb_spec 47 c) as [<-|]; [by vm_compute in H | done]. Qed.

Lemma isspace_values (c : codepoint) :
  isspace c = true ->
  (9 <= c <= 13 \/ 28 <= c <= 32 \/ c = 133 \/ c = 160 \/ c = 5760 \/
   8192 <= c <= 8202 \/ 8232 <= c <= 8233 \/ c = 8239 \/ c = 8287 \/ c = 12288)%N.
Proof.
  unfold isspace, in_ranges, space_ranges. cbn [existsb fst snd].
  rewrite !orb_true_iff, !andb_true_iff, !N.leb_le. lia.
Qed.

Lemma isspace_not_decimal (c : codepoint) : isspace c = true -> isdecimal c = false.
Proof.
  intros H%isspace_values.
  destruct (isdecimal c) eqn:Hd; [|done].
  unfold isdecimal, in_ranges, decimal_ranges in Hd. cbn [existsb fst snd] in Hd.
  rewrite !orb_true_iff, !andb_true_iff, !N.leb_le in Hd. lia.
Qed.

Lemma match_here_space_head (c : codepoint) (s : pystr) :
  isspace c = true -> match_here (c :: s) = None.
Proof.
  intros H%isspace_not_slash. unfold match_here.
  change (str "/app/") with (47%N :: str "app/"). cbn [after_prefix]. by rewrite H.
Qed.

Lemma re_search_drop_space (s : pystr) :
  re_search (drop_while isspace s) = re_search s.
Proof.
  induction s as [|c s IH]; [done|]. cbn [drop_while].
  destruct (isspace c) eqn:Hc; [|done].
  by rewrite IH, (re_search_eq (c :: s)), match_here_space_head.
Qed.

Lemma re_search_spaces (ws : pystr) :
  Forall (fun c => isspace c = true) ws -> re_search ws = None.
Proof.
  induction 1 as [|c ws Hc _ IH]; [done|].
  by rewrite re_search_eq, match_here_space_head.
Qed.

(** A pattern of characters that are no whitespace is not completed by
    appended whitespace. *)
Lemma after_prefix_app_space (p s ws : pystr) :
  Forall (fun c => isspace c = false) p ->
  Forall (fun c => isspace c = true) ws ->
  after_prefix p (s ++ ws) = (fun r => r ++ ws) <$> after_prefix p s.
Proof.
  intros Hp Hws. revert s. induction Hp as [|a p Ha _ IH]; intros s; [done|].
  destruct s as [|b s]; cbn [after_prefix app].
  - destruct Hws as [|c ws Hc _]; [done|]. cbn [after_prefix].
    destruct (N.eqb_spec a c) as [->|]; [congruence | done].
  - destruct (a =? b)%N; [apply IH | done].
Qed.

Lemma take_while_app_stop {A} (p : A -> bool) (l rest : list A) :
  match rest with [] => True | c :: _ => p c = false end ->
  take_while p (l ++ rest) = take_while p l.
Proof.
  intros Hrest. induction l as [|x l IH]; cbn [app take_while].
  - destruct rest as [|c rest]; [done|]. cbn [take_while]. by rewrite Hrest.
  - by rewrite IH.
Qed.

Lemma match_here_app_space (s ws : pystr) :
  Forall (fun c => isspace c = true) ws -> match_here (s ++ ws) = match_here s.
Proof.
  intros Hws. unfold match_here.
  rewrite (after_prefix_app_space (str "/app/") s ws) by (done || by repeat constructor).
  destruct (after_prefix (str "/app/") s) as [rest|]; [|done]. cbn [fmap option_fmap option_map].
  rewrite take_while_app_stop; [done|].
  destruct Hws as [|c ws Hc _]; [done | by apply isspace_not_decimal].
Qed.

Lemma re_search_app_space (s ws : pystr) :
  Forall (fun c => isspace c = true) ws -> re_search (s ++ ws) = re_search s.
Proof.
  intros Hws. induction s as [|c s IH].
  - cbn [app]. by rewrite (re_search_spaces ws Hws).
  - rewrite (re_search_eq (c :: s)), <- IH.
    rewrite <- (match_here_app_space (c :: s) ws Hws). apply re_search_eq.
Qed.

Lemma re_search_strip (s : pystr) : re_search (py_strip s) = re_search s.
Proof.
  destruct (py_strip_split s) as (ws & Hws & Hv).
  by rewrite <- (re_search_drop_space s), Hv, re_search_app_space.
Qed.

(** X2. Whitespace around a URL has no effect on extraction: the
    stripped string gives the same identifier or the same failure.  So
    the URLs that [load_urls] hands to the driver give what the raw
    lines would give, and none of them fails as an empty URL. *)
Theorem extract_app_id_strip (s : pystr) (lines : list pystr) :
  extract_app_id (PStr (py_strip s)) = extract_app_id (PStr s) /\
  Forall (fun u => extract_app_id (PStr u)
                   <> Raise (SteamExtractorError MsgEmptyOrNotString))
         (load_urls lines).
Proof.
  split.
  - cbn [extract_app_id]. rewrite py_strip_idem, re_search_strip. done.
  - eapply Forall_impl; [apply load_urls_Forall|].
    intros u (Hne & Hs & _). cbn [extract_app_id]. rewrite Hs.
    destruct u as [|c u]; [done|]. by destruct (re_search (c :: u)).
Qed.

(** ** Extraction and what follows the identifier *)

Lemma after_prefix_None_app (p s x : pystr) :
  after_prefix p s = None -> length p <= length s -> after_prefix p (s ++ x) = None.
Proof.
  revert s. induction p as [|a p IH]; intros s; [done|].
  destruct s as [|b s]; cbn [after_prefix app length]; [lia|].
  destruct (a =? b)%N; [|done]. intros H Hlen. apply IH; [done | lia].
Qed.

Lemma match_here_app_keep (s ds suffix : pystr) :
  match_here s = Some ds ->
  match suffix with [] => True | c :: _ => isdecimal c = false end ->
  match_here (s ++ suffix) = Some ds.
Proof.
  intros (post & -> & Hne & Hall & Hpost)%match_here_Some Hsuffix.
  apply match_here_Some. exists (post ++ suffix).
  split; [by rewrite <- !app_assoc|]. split; [done|]. split; [done|].
  by destruct post.
Qed.

Lemma match_here_None_app (s x : pystr) :
  match_here s = None -> 6 <= length s -> match_here (s ++ x) = None.
Proof.
  unfold match_here. intros H Hlen.
  destruct (after_prefix (str "/app/") s) as [rest|] eqn:Hp.
  - pose proof (proj1 (after_prefix_Some _ _ _) Hp) as ->.
    assert (after_prefix (str "/app/") ((str "/app/" ++ rest) ++ x) = Some (rest ++ x))
      as -> by (apply after_prefix_Some; by rewrite <- app_assoc).
    destruct rest as [|c rest]; [rewrite length_app in Hlen; simpl in Hlen; lia|].
    cbn [take_while app] in *. by destruct (isdecimal c).
  - rewrite after_prefix_None_app; [done..|]. simpl. lia.
Qed.

Lemma re_search_Some_length (s ds : pystr) : re_search s = Some ds -> 6 <= length s.
Proof.
  intros (pre & suf & -> & (post & -> & Hne & _)%match_here_Some & _)%re_search_Some.
  rewrite !length_app. destruct ds; [done|]. simpl. lia.
Qed.

Lemma re_search_app_suffix (s ds suffix : pystr) :
  re_search s = Some ds ->
  match suffix with [] => True | c :: _ => isdecimal c = false end ->
  re_search (s ++ suffix) = Some ds.
Proof.
  intros Hr Hsuffix. induction s as [|c s IH].
  - apply re_search_Some_length in Hr. simpl in Hr. lia.
  - rewrite re_search_eq in Hr. rewrite (re_search_eq ((c :: s) ++ suffix)).
    destruct (match_here (c :: s)) as [ds0|] eqn:Hm.
    + by rewrite (match_here_app_keep _ _ _ Hm Hsuffix).
    + rewrite match_here_None_app; [by apply IH | done |].
      apply re_search_Some_length in Hr. simpl. lia.
Qed.

(** X3. What follows the match does not matter as long as it does not
    lengthen the digits: a URL from which an identifier is extracted
    gives the same identifier with any text appended that does not
    start with a digit (a further path segment, a query string). *)
Theorem extract_app_id_suffix (u app_id suffix : pystr) :
  extract_app_id (PStr u) = Return app_id ->
  match suffix with [] => True | c :: _ => isdecimal c = false end ->
  extract_app_id (PStr (u ++ suffix)) = Return app_id.
Proof.
  intros (u' & [= <-] & Hr)%extract_app_id_Return Hsuffix.
  pose proof (re_search_app_suffix u app_id suffix Hr Hsuffix) as Hr'.
  rewrite extract_app_id_str, Hr'; [done|].
  apply has_pattern_strip, re_search_has_pattern. by eexists.
Qed.

Lemma extract_app_id_suffix_witness :
  extract_app_id (PStr (str "http://s/app/440" ++ str "?l=en&x=1")) = Return (str "440").
Proof.
  apply (extract_app_id_suffix (str "http://s/app/440") (str "440") (str "?l=en&x=1"));
    reflexivity.
Defined.

Lemma re_search_skip (c : codepoint) (s : pystr) :
  match_here (c :: s) = None -> re_search (c :: s) = re_search s.
Proof. intros H. by rewrite re_search_eq, H. Qed.

Lemma re_search_store_url (x : pystr) :
  re_search (str "https://store.steampowered.com" ++ x) = re_search x.
Proof.
  let l := eval vm_compute in (str "https://store.steampowered.com") in
  change (str "https://store.steampowered.com") with l.
  cbn [app]. by rewrite !re_search_skip by reflexivity.
Qed.

(** X4. The product page of an identifier gives the identifier back:
    for a non-empty string of digits, the store URL built from it,
    followed by anything that does not start with a digit, is
    extracted to exactly these digits. *)
Theorem extract_app_id_store_url (app_id tail : pystr) :
  app_id <> [] ->
  Forall (fun c => isdecimal c = true) app_id ->
  match tail with [] => True | c :: _ => isdecimal c = false end ->
  extract_app_id (PStr (store_url app_id tail)) = Return app_id.
Proof.
  intros Hne Hall Htail.
  assert (re_search (store_url app_id tail) = Some app_id) as Hr.
  { unfold store_url.
    change (str "https://store.steampowered.com/app/")
      with (str "https://store.steampowered.com" ++ str "/app/").
    rewrite <- app_assoc, re_search_store_url, re_search_eq.
    assert (match_here (str "/app/" ++ app_id ++ tail) = Some app_id) as ->; [|done].
    apply match_here_Some. by exists tail. }
  rewrite extract_app_id_str, Hr; [done|].
  apply has_pattern_strip, re_search_has_pattern. by eexists.
Qed.

Lemma extract_app_id_store_url_witness :
  extract_app_id (PStr (store_url (str "292030") (str "/The_Witcher_3/")))
  = Return (str "292030").
Proof.
  apply extract_app_id_store_url; [discriminate | repeat constructor | reflexivity].
Defined.

(** ** The fetcher on bodies of any shape *)


(** X5. On a body that is an object, the entry of the requested
    identifier alone decides the outcome: without an entry the fetcher
    fails with the missing-identifier message, with an entry that is not
    an object it raises [AttributeError], and with an object it looks
    at [success] and [data] only.  Bodies that agree on this entry give
    the same outcome, whatever else they hold. *)
Theorem fetch_steam_data_object (E : env) (app_id : pystr) (d : list (pystr * pyval)) :
  http_get E (api_url app_id) = HttpResponse (Some (PDict d)) ->
  fetch_steam_data E app_id =
  match dict_lookup app_id d with
  | None => Raise (SteamExtractorError MsgMissingAppId)
  | Some (PDict envelope) =>
      match dict_lookup (str "success") envelope with
      | Some v =>
          if truthy v then
            match dict_lookup (str "data") envelope with
            | Some game => Return game
            | None => Raise (KeyError (str "data"))
            end
          else Raise (SteamExtractorError MsgSuccessFalse)
      | None => Raise (SteamExtractorError MsgSuccessFalse)
      end
  | Some _ => Raise AttributeError
  end /\
  (forall E' d',
      http_get E' (api_url app_id) = HttpResponse (Some (PDict d')) ->
      dict_lookup app_id d' = dict_lookup app_id d ->
      fetch_steam_data E' app_id = fetch_steam_data E app_id).
Proof.
  intros Hget.
  assert (forall d0, unwrap_envelope app_id (PDict d0) =
            match dict_lookup app_id d0 with
            | None => Raise (SteamExtractorError MsgMissingAppId)
            | Some (PDict envelope) =>
                match dict_lookup (str "success") envelope with
                | Some v =>
                    if truthy v then
                      match dict_lookup (str "data") envelope with
                      | Some game => Return game
                      | None => Raise (KeyError (str "data"))
                      end
                    else Raise (SteamExtractorError MsgSuccessFalse)
                | None => Raise (SteamExtractorError MsgSuccessFalse)
                end
            | Some _ => Raise AttributeError
            end) as Hu.
  { intros d0. destruct (dict_lookup app_id d0) as [envelope|] eqn:Hd.
    - destruct envelope as [| | | | | |envelope];
        try (unfold unwrap_envelope; cbn [str_in py_getitem mbind result_bind];
             rewrite Hd, bool_decide_eq_true_2 by (by eexists); done).
      by rewrite (unwrap_envelope_dict _ _ _ Hd).
    - unfold unwrap_envelope. cbn [str_in mbind result_bind].
      rewrite Hd, bool_decide_eq_false_2 by (by intros [? [=]]). done. }
  unfold fetch_steam_data. rewrite Hget. split; [apply Hu|].
  intros E' d' Hget' Hd. by rewrite Hget', !Hu, Hd.
Qed.

Lemma fetch_steam_data_object_witness :
  fetch_steam_data
    (answering (PDict [ (str "3", PInt 1);
                        (str "4", PDict [ (str "success", PInt 1);
                                          (str "data", PList []) ]) ]))
    (str "4")
  = Return (PList []).
Proof.
  exact (proj1 (fetch_steam_data_object
                  (answering (PDict [ (str "3", PInt 1);
                                      (str "4", PDict [ (str "success", PInt 1);
                                                        (str "data", PList []) ]) ]))
                  (str "4") _ eq_refl)).
Defined.

(** X6. A parsed body that is not an object never yields a record: the
    fetcher fails with the missing-identifier message when the
    membership test is false (a list without the identifier as an
    element, a string without it as a substring) and raises
    [TypeError] in every other case. *)
Theorem fetch_steam_data_not_object (E : env) (app_id : pystr) (data : pyval) :
  http_get E (api_url app_id) = HttpResponse (Some data) ->
  (forall d, data <> PDict d) ->
  fetch_steam_data E app_id =
  match data with
  | PList l =>
      if existsb (eq_str app_id) l then Raise TypeError
      else Raise (SteamExtractorError MsgMissingAppId)
  | PStr h =>
      if is_substring app_id h then Raise TypeError
      else Raise (SteamExtractorError MsgMissingAppId)
  | _ => Raise TypeError
  end.
Proof.
  intros Hget Hnd. unfold fetch_steam_data, unwrap_envelope. rewrite Hget.
  destruct data as [| | | |h|l|d]; cbn [str_in mbind result_bind]; try done.
  - by destruct (is_substring app_id h).
  - by destruct (existsb (eq_str app_id) l).
  - by destruct (Hnd d).
Qed.

Lemma fetch_steam_data_not_object_witness :
  fetch_steam_data (answering (PList [ PStr (str "4"); PInt 4 ])) (str "4") = Raise TypeError /\
  fetch_steam_data (answering (PList [ PInt 4 ])) (str "4")
  = Raise (SteamExtractorError MsgMissingAppId).
Proof.
  split.
  - exact (fetch_steam_data_not_object (answering (PList [ PStr (str "4"); PInt 4 ]))
             (str "4") _ eq_refl ltac:(discriminate)).
  - exact (fetch_steam_data_not_object (answering (PList [ PInt 4 ]))
             (str "4") _ eq_refl ltac:(discriminate)).
Defined.

(** ** The failures of each stage *)

Lemma build_payload_Return (app_id url game payload : pyval) :
  build_payload app_id url game = Return payload ->
  exists record screenshots,
    game = PDict record /\
    payload = payload_record app_id (name_of record) url (header_of record) screenshots.
Proof.
  destruct game as [| | | | | |record]; try done.
  rewrite build_payload_dict. intros [= <-]. by eexists _, _.
Qed.




(** ** The builder on records of any content *)

Lemma path_full_of_list (items : list pyval) :
  path_full_of items =
  if existsb breaks_comprehension items then Raise TypeError
  else Return (omap entry_path items).
Proof.
  induction items as [|s items IH]; [done|].
  cbn [path_full_of existsb]. rewrite IH.
  destruct s as [| | | |h|l|d]; try done; cbn [str_in breaks_comprehension mbind result_bind].
  - by destruct (is_substring (str "path_full") h).
  - by destruct (existsb (eq_str (str "path_full")) l).
  - cbn [orb py_getitem]. change (omap entry_path (PDict d :: items))
      with (match dict_lookup (str "path_full") d with
            | Some v => v :: omap entry_path items
            | None => omap entry_path items
            end).
    destruct (dict_lookup (str "path_full") d) as [v|].
    + rewrite bool_decide_eq_true_2 by by eexists. cbn [mbind result_bind].
      by destruct (existsb breaks_comprehension items).
    + rewrite bool_decide_eq_false_2 by by intros [? [=]]. done.
Qed.

Lemma omap_length_le {A B} (f : A -> option B) (l : list A) :
  length (omap f l) <= length l.
Proof.
  induction l as [|x l IH]; [done|]. cbn [omap list_omap length].
  fold (omap f l). destruct (f x); simpl; lia.
Qed.

(** X8. The screenshots of a payload are all or nothing.  When the
    screenshots field is a list, the payload holds the [path_full]
    value of every entry that is an object with this key, in order,
    unless some entry makes the comprehension raise (an entry that is
    null, a number or a boolean, or a string or list in which
    [path_full] is found): then it holds none.  There are never more
    screenshots than entries. *)
Theorem build_payload_list_field (app_id url : pyval) (game : list (pystr * pyval))
    (items : list pyval) :
  dict_lookup (str "screenshots") game = Some (PList items) ->
  let screenshots :=
    if existsb breaks_comprehension items then [] else omap entry_path items in
  build_payload app_id url (PDict game)
  = Return (payload_record app_id (name_of game) url (header_of game) screenshots) /\
  length screenshots <= length items.
Proof.
  intros Hs screenshots. split.
  - rewrite build_payload_dict, Hs. cbn [default_or py_iter mbind result_bind].
    rewrite path_full_of_list. subst screenshots.
    by destruct (existsb breaks_comprehension items).
  - subst screenshots. destruct (existsb breaks_comprehension items);
      [simpl; lia | apply omap_length_le].
Qed.

Lemma build_payload_list_field_witness :
  build_payload (PStr (str "10")) (PStr (str "u"))
    (PDict [ (str "screenshots",
              PList [ PDict [ (str "path_full", PStr (str "a.jpg")) ];
                      PStr (str "b.jpg");
                      PList [];
                      PDict [ (str "path_full", PNone) ] ]) ])
  = Return (payload_record (PStr (str "10")) (PStr (str "Unknown")) (PStr (str "u")) PNone
              [ PStr (str "a.jpg"); PNone ]).
Proof.
  exact (proj1 (build_payload_list_field (PStr (str "10")) (PStr (str "u"))
                  [ (str "screenshots",
                     PList [ PDict [ (str "path_full", PStr (str "a.jpg")) ];
                             PStr (str "b.jpg");
                             PList [];
                             PDict [ (str "path_full", PNone) ] ]) ]
                  _ eq_refl)).
Defined.

(** X9. The builder reads three keys of the record and nothing else:
    two records with the same [name], [header_image] and [screenshots]
    entries (present or absent alike) give the same payload, whatever
    their other keys and the order of their keys. *)
Theorem build_payload_reads_three_keys (app_id url : pyval)
    (game1 game2 : list (pystr * pyval)) :
  dict_lookup (str "name") game1 = dict_lookup (str "name") game2 ->
  dict_lookup (str "header_image") game1 = dict_lookup (str "header_image") game2 ->
  dict_lookup (str "screenshots") game1 = dict_lookup (str "screenshots") game2 ->
  build_payload app_id url (PDict game1) = build_payload app_id url (PDict game2).
Proof.
  intros Hn Hh Hs. rewrite !build_payload_dict. unfold name_of, header_of.
  by rewrite Hn, Hh, Hs.
Qed.

Lemma build_payload_reads_three_keys_witness :
  build_payload (PStr (str "10")) (PStr (str "u"))
    (PDict [ (str "type", PStr (str "game")); (str "name", PStr (str "G")) ])
  = build_payload (PStr (str "10")) (PStr (str "u"))
      (PDict [ (str "name", PStr (str "G")); (str "is_free", PBool false) ]).
Proof.
  apply build_payload_reads_three_keys; reflexivity.
Defined.

(** ** One item, in every case *)

Lemma prepared_Return (E : env) (url : pyval) (app_id : pystr) (payload : pyval) :
  prepared E url = Return (app_id, payload) ->
  extract_app_id url = Return app_id /\
  exists record screenshots,
    fetch_steam_data E app_id = Return (PDict record) /\
    payload = payload_record (PStr app_id) (name_of record) url (header_of record)
                screenshots.
Proof.
  unfold prepared.
  destruct (extract_app_id url) as [id|]; cbn [mbind result_bind]; [|done].
  destruct (fetch_steam_data E id) as [game|] eqn:Hf; cbn [mbind result_bind]; [|done].
  destruct (build_payload (PStr id) url game) as [p|] eqn:Hb;
    cbn [mbind result_bind]; [|done].
  intros [= <- <-]. split; [done|].
  apply build_payload_Return in Hb as (record & shots & -> & ->).
  by exists record, shots.
Qed.



(** A failed [open]: the item prints the write failure and nothing else. *)
Lemma process_url_eq_failed_write (E : env) (url : pyval) (app_id : pystr)
    (payload : pyval) (msg : pystr) (w : world) :
  prepared E url = Return (app_id, payload) ->
  open_error E (file_path_of app_id) = Some msg ->
  process_url E url w
  = (Return tt, add_line (add_line w (Processing url)) (ErrorLine (MsgWriteFailed msg))).
Proof. intros Hp Ho. by rewrite process_url_eq, pipeline_eq, Hp, Ho. Qed.



(** X12. A successful [save_json] creates or replaces exactly one file:
    it returns, the file of the identifier holds the serialized
    payload, every other file is as before, one saved line is
    printed, and what the file held before (for instance from an
    earlier call for the same identifier) leaves no trace. *)
Theorem save_json_one_file (E : env) (app_id : pystr) (payload : pyval) (w : world) :
  open_error E (file_path_of app_id) = None ->
  let w' := (save_json E app_id payload w).2 in
  (save_json E app_id payload w).1 = Return tt /\
  files w' !! file_path_of app_id = Some (json_dumps E payload) /\
  (forall q, q <> file_path_of app_id -> files w' !! q = files w !! q) /\
  console w' = console w ++ [ Saved (file_path_of app_id) ] /\
  (forall earlier, files (save_json E app_id payload
                            (save_json E app_id earlier w).2).2 = files w').
Proof.
  intros Ho w'. subst w'. unfold save_json. run_M. rewrite Ho.
  cbn [fst snd files console].
  split; [done|]. split; [apply lookup_insert_eq|].
  split; [intros q Hq; by apply lookup_insert_ne|]. split; [done|].
  intros earlier. apply insert_insert_eq.
Qed.

Lemma save_json_one_file_witness :
  files (save_json two_products (str "1") (PInt 7) empty_world).2
    !! str "output/app_1.json" = Some (str "7").
Proof.
  exact (proj1 (proj2 (save_json_one_file two_products (str "1") (PInt 7) empty_world
                         eq_refl))).
Defined.

Lemma process_url_console (E : env) (url : pyval) (w : world) :
  exists tail,
    console (process_url E url w).2 = console w ++ Processing url :: tail /\
    List.filter is_processing tail = [] /\
    length (List.filter is_outcome tail) = 1.
Proof.
  destruct (prepared E url) as [[app_id payload]|e] eqn:Hp.
  - destruct (open_error E (file_path_of app_id)) as [msg|] eqn:Ho.
    + rewrite (process_url_eq_failed_write _ _ _ _ _ _ Hp Ho).
      exists [ErrorLine (MsgWriteFailed msg)]. split; [|done].
      unfold add_line. cbn [snd console]. by rewrite <- app_assoc.
    + destruct (prepared_Return _ _ _ _ Hp) as (_ & record & shots & _ & ->).
      rewrite process_url_eq, pipeline_eq, Hp, Ho, image_count_record.
      eexists [_; _].
      split; [unfold add_line, add_file; cbn [snd console]; by rewrite <- !app_assoc|].
      done.
  - rewrite (process_url_failure _ _ _ _ Hp). exists [report e].
    split; [unfold add_line; cbn [snd console]; by rewrite <- app_assoc|].
    by destruct e.
Qed.

(** X13. What an item can do, faults included.  Whatever happens, it
    changes no file but that of its identifier, and what this file
    holds afterwards is the artifact or a first part of it.  An
    exception leaves the item only from a failing [print] of the start
    line or of an error line.  When it returns it has printed the
    start line and then either the saved line and the image count,
    the complete artifact being in the file, or one error line,
    possibly after the saved line. *)
Theorem process_url_io_outcome (E : env) (F : faults) (url : pyval) (w : world) :
  (forall q,
      files (process_url_io E F url w).2 !! q = files w !! q \/
      exists app_id payload k,
        prepared E url = Return (app_id, payload) /\
        open_error E (file_path_of app_id) = None /\
        q = file_path_of app_id /\
        files (process_url_io E F url w).2 !! q = Some (take k (json_dumps E payload))) /\
  (forall e,
      (process_url_io E F url w).1 = Raise e ->
      print_error F (Processing url) = Some e \/
      exists e0, print_error F (report e0) = Some e) /\
  ((process_url_io E F url w).1 = Return tt ->
   (exists app_id payload n,
       prepared E url = Return (app_id, payload) /\
       (0 <= n)%Z /\
       files (process_url_io E F url w).2
       = <[file_path_of app_id := json_dumps E payload]> (files w) /\
       console (process_url_io E F url w).2
       = console w ++ [ Processing url; Saved (file_path_of app_id); Extracted n ]) \/
   (exists e0,
       console (process_url_io E F url w).2
       = console w ++ [ Processing url; report e0 ] \/
       exists app_id,
         console (process_url_io E F url w).2
         = console w ++ [ Processing url; Saved (file_path_of app_id); report e0 ])).
Proof.
  rewrite process_url_io_eq.
  destruct (print_error F (Processing url)) as [e1|] eqn:Hs.
  { cbn [fst snd]. split; [by left|]. split; [intros e [= ->]; by left | done]. }
  rewrite pipeline_io_eq.
  destruct (prepared E url) as [[app_id payload]|e0] eqn:Hp.
  2:{ destruct (print_error F (report e0)) as [e1|] eqn:He; cbn [fst snd add_line files console].
      - split; [by left|]. split; [intros e [= ->]; right; by exists e0 | done].
      - split; [by left|]. split; [done|]. intros _. right. exists e0. left.
        by rewrite <- app_assoc. }
  destruct (prepared_Return _ _ _ _ Hp) as (_ & record & shots & _ & Hpay).
  rewrite save_json_io_eq.
  destruct (open_error E (file_path_of app_id)) as [msg|] eqn:Ho.
  { destruct (print_error F (report _)) as [e1|] eqn:He; cbn [fst snd add_line files console].
    - split; [by left|]. split; [intros e [= ->]; right; by eexists | done].
    - split; [by left|]. split; [done|]. intros _. right. eexists. left.
      by rewrite <- app_assoc. }
  assert (forall text q,
            (exists k, text = take k (json_dumps E payload)) ->
            <[file_path_of app_id := text]> (files w) !! q = files w !! q \/
            exists app_id0 payload0 k,
              Return (app_id, payload) = Return (app_id0, payload0) /\
              open_error E (file_path_of app_id0) = None /\
              q = file_path_of app_id0 /\
              <[file_path_of app_id := text]> (files w) !! q
              = Some (take k (json_dumps E payload0))) as Hfiles.
  { intros text q [k ->].
    destruct (decide (q = file_path_of app_id)) as [->|Hq].
    - right. exists app_id, payload, k. by rewrite lookup_insert_eq.
    - left. by apply lookup_insert_ne. }
  assert (exists k, json_dumps E payload = take k (json_dumps E payload)) as Hfull
    by (exists (length (json_dumps E payload)); by rewrite take_ge).
  destruct (dump_error F _ _) as [[k e0]|] eqn:Hd.
  { destruct (print_error F (report _)) as [e1|] eqn:He;
      cbn [fst snd add_line add_file files console].
    - split; [intros q; apply (Hfiles (take k (json_dumps E payload))); eauto|].
      split; [intros e [= ->]; right; by eexists | done].
    - split; [intros q; apply (Hfiles (take k (json_dumps E payload))); eauto|].
      split; [done|]. intros _. right. eexists. left. by rewrite <- app_assoc. }
  destruct (print_error F (Saved _)) as [e0|] eqn:Hsaved.
  { destruct (print_error F (report e0)) as [e1|] eqn:He;
      cbn [fst snd add_line add_file files console].
    - split; [intros q; by apply (Hfiles (json_dumps E payload))|].
      split; [intros e [= ->]; right; by eexists | done].
    - split; [intros q; by apply (Hfiles (json_dumps E payload))|].
      split; [done|]. intros _. right. eexists. left. by rewrite <- app_assoc. }
  rewrite Hpay, image_count_record. rewrite <- Hpay.
  destruct (print_error F (Extracted _)) as [e0|] eqn:Hext.
  { destruct (print_error F (report e0)) as [e1|] eqn:He;
      cbn [fst snd add_line add_file files console].
    - split; [intros q; by apply (Hfiles (json_dumps E payload))|].
      split; [intros e [= ->]; right; by eexists | done].
    - split; [intros q; by apply (Hfiles (json_dumps E payload))|].
      split; [done|]. intros _. right. exists e0. right. exists app_id.
      by rewrite <- !app_assoc. }
  cbn [fst snd add_line add_file files console].
  split; [intros q; by apply (Hfiles (json_dumps E payload))|].
  split; [done|]. intros _. left. eexists app_id, payload, _.
  split; [done|]. split; [|split; [done | by rewrite <- !app_assoc]].
  destruct (truthy (header_of record)); lia.
Qed.

(** ** The batch as a whole *)

Lemma for_each_console (E : env) (urls : list pystr) (w : world) :
  let w' := (for_each (fun url => process_url E (PStr url)) urls w).2 in
  exists lines,
    console w' = console w ++ lines /\
    List.filter is_processing lines = List.map (fun u => Processing (PStr u)) urls /\
    length (List.filter is_outcome lines) = length urls.
Proof.
  revert w. induction urls as [|u urls IH]; intros w; cbn zeta.
  - exists []. by rewrite app_nil_r.
  - destruct (process_url_returns E (PStr u) w) as [w1 H1].
    rewrite (for_each_cons (fun url => process_url E (PStr url)) u urls w w1 H1).
    destruct (process_url_console E (PStr u) w) as (tail & Hc & Hp & Ho).
    rewrite H1 in Hc. cbn [snd] in Hc.
    destruct (IH w1) as (lines & Hl & Hlp & Hlo). cbn zeta in Hl.
    exists ((Processing (PStr u) :: tail) ++ lines).
    rewrite Hl, Hc, <- app_assoc. split; [done|].
    rewrite !List.filter_app. cbn [List.filter is_processing is_outcome List.map].
    rewrite Hp, Hlp, length_app, Ho, Hlo. done.
Qed.

Lemma run_batch_eq (E : env) (urls : list pystr) (w : world) :
  run_batch E urls w
  = (Return tt,
     add_line (for_each (fun url => process_url E (PStr url)) urls w).2 Finished).
Proof.
  unfold run_batch. run_M.
  destruct (for_each_returns (fun url => process_url E (PStr url)) urls w) as [w1 ->];
    [intros; apply process_url_returns | done].
Qed.

(** X14. The console follows the input.  After a batch the start lines
    printed by the run are those of the URLs, one each and in the
    order of the list; there are as many outcome lines (image count or
    error) as URLs; what was on the console before is kept in front,
    and the closing line comes last. *)
Theorem run_batch_console (E : env) (urls : list pystr) (w : world) :
  exists lines,
    console (run_batch E urls w).2 = console w ++ lines ++ [Finished] /\
    List.filter is_processing lines = List.map (fun u => Processing (PStr u)) urls /\
    length (List.filter is_outcome lines) = length urls.
Proof.
  destruct (for_each_console E urls w) as (lines & Hc & Hp & Ho). cbn zeta in Hc.
  exists lines. split; [|done].
  rewrite run_batch_eq. cbn [snd console add_line]. by rewrite Hc, <- app_assoc.
Qed.

Lemma apply_writes_snoc (ws : list (pystr * pystr)) (k v : pystr) (m : gmap pystr pystr) :
  apply_writes (ws ++ [(k, v)]) m = <[k := v]> (apply_writes ws m).
Proof. by rewrite apply_writes_app. Qed.

Lemma apply_writes_lookup_other (ws : list (pystr * pystr)) (m : gmap pystr pystr)
    (p : pystr) :
  Forall (fun kv => kv.1 <> p) ws -> apply_writes ws m !! p = m !! p.
Proof.
  induction ws as [|[k v] ws IH] using rev_ind; [done|].
  intros [Hws Hk]%Forall_app. rewrite apply_writes_snoc.
  rewrite lookup_insert_ne; [by apply IH|]. by inversion Hk.
Qed.


Lemma apply_writes_keeps (ws : list (pystr * pystr)) (m : gmap pystr pystr) (p : pystr) :
  is_Some (m !! p) -> is_Some (apply_writes ws m !! p).
Proof.
  induction ws as [|[k v] ws IH] using rev_ind; [done|].
  intros Hm. rewrite apply_writes_snoc.
  destruct (decide (k = p)) as [->|Hne];
    [rewrite lookup_insert_eq; by eexists | rewrite lookup_insert_ne; auto].
Qed.

Lemma written_path (E : env) (url : pyval) (p t : pystr) :
  written E url = Some (p, t) ->
  exists app_id payload,
    prepared E url = Return (app_id, payload) /\
    app_id <> [] /\ Forall (fun c => isdecimal c = true) app_id /\
    p = file_path_of app_id /\ t = json_dumps E payload.
Proof.
  unfold written. destruct (prepared E url) as [[app_id payload]|] eqn:Hp; [|done].
  destruct (open_error E (file_path_of app_id)); [done|]. intros [= <- <-].
  destruct (prepared_Return _ _ _ _ Hp) as [Hx _].
  destruct (extract_app_id_digits _ _ Hx). by exists app_id, payload.
Qed.

Lemma elem_of_writes_of (E : env) (urls : list pystr) (kv : pystr * pystr) :
  kv ∈ writes_of E urls <-> exists u, u ∈ urls /\ written E (PStr u) = Some kv.
Proof. unfold writes_of. apply list_elem_of_omap. Qed.

(** X16. A batch touches nothing but its own artifacts.  A path that
    is not [output/app_<digits>.json] for a non-empty digit string
    holds after the run what it held before, and no file that existed
    before the run is missing after it. *)
Theorem run_batch_touches_only_outputs (E : env) (urls : list pystr) (w : world)
    (p : pystr) :
  ((forall app_id, app_id <> [] -> Forall (fun c => isdecimal c = true) app_id ->
                   p <> file_path_of app_id) ->
   files (run_batch E urls w).2 !! p = files w !! p) /\
  (is_Some (files w !! p) -> is_Some (files (run_batch E urls w).2 !! p)).
Proof.
  rewrite run_batch_files. split; [|apply apply_writes_keeps].
  intros Hp. apply apply_writes_lookup_other, Forall_forall.
  intros [k v] (u & _ & Hw)%elem_of_writes_of Hk. cbn [fst] in Hk. subst k.
  apply written_path in Hw as (app_id & _ & _ & Hne & Hall & -> & _).
  by apply (Hp app_id).
Qed.

Lemma run_batch_touches_only_outputs_witness :
  files (run_batch two_products (load_urls three_lines)
           {| files := {[ str "steam_links.txt" := str "x" ]}; console := [] |}).2
    !! str "steam_links.txt" = Some (str "x").
Proof.
  refine (eq_trans (proj1 (run_batch_touches_only_outputs two_products
                             (load_urls three_lines) _ (str "steam_links.txt")) _) _);
    [|reflexivity].
  intros app_id _ _. rewrite file_path_of_eq. discriminate.
Defined.





(** ** The text of an artifact *)

Lemma printable_forallb (l : pystr) :
  forallb printable l = true -> Forall (fun c => printable c = true) l.
Proof. intros H. apply Forall_forall. intros c Hc%list_elem_of_In. by apply (proj1 (forallb_forall _ _) H). Qed.

Lemma hex_digit_printable (d : N) : (d < 16)%N -> printable (hex_digit d) = true.
Proof.
  intros Hd. unfold printable, hex_digit.
  destruct (N.ltb_spec d 10);
    apply orb_true_iff; left; apply andb_true_iff; split; apply N.leb_le; lia.
Qed.

Lemma backslash_u_printable (n : N) :
  Forall (fun c => printable c = true) (backslash_u n).
Proof.
  unfold backslash_u, hex4.
  repeat (constructor; [first [reflexivity | apply hex_digit_printable, N.mod_lt; lia]|]).
  constructor.
Qed.

Lemma escape_char_printable (c : codepoint) :
  Forall (fun c => printable c = true) (escape_char c).
Proof.
  unfold escape_char.
  repeat match goal with
         | |- context [if ?b then _ else _] =>
             destruct b eqn:?; [first [by apply printable_forallb
                                      | apply backslash_u_printable
                                      | idtac]|]
         end.
  - constructor; [|constructor]. unfold printable.
    match goal with H : (_ && _)%bool = true |- _ => by rewrite H end.
  - apply Forall_app; split; apply backslash_u_printable.
Qed.

Lemma encode_str_printable (s : pystr) :
  Forall (fun c => printable c = true) (encode_str s).
Proof.
  unfold encode_str. constructor; [done|]. apply Forall_app. split; [|by repeat constructor].
  induction s as [|c s IH]; [constructor|]. cbn [flat_map].
  apply Forall_app. split; [apply escape_char_printable | exact IH].
Qed.

Lemma int_repr_printable (z : Z) : Forall (fun c => printable c = true) (int_repr z).
Proof.
  unfold int_repr.
  assert (forall d, Forall (fun c => printable c = true) (str (NilEmpty.string_of_uint d)))
    as Hu.
  { induction d; cbn [NilEmpty.string_of_uint]; rewrite ?str_String;
      [constructor | constructor; [reflexivity | exact IHd] ..]. }
  assert (forall d, Forall (fun c => printable c = true) (str (NilZero.string_of_uint d)))
    as Hz.
  { intros d. destruct d; try apply Hu. by apply printable_forallb. }
  destruct (Z.to_int z) as [d|d]; cbn [NilZero.string_of_int]; rewrite ?str_String;
    [apply Hz | constructor; [reflexivity | apply Hz]].
Qed.

Lemma newline_indent_printable (level : nat) :
  Forall (fun c => printable c = true) (newline_indent level).
Proof.
  unfold newline_indent. constructor; [done|].
  induction (2 * level) as [|n IH]; constructor; [done | exact IH].
Qed.

Lemma join_printable (sep : pystr) (chunks : list pystr) :
  Forall (fun c => printable c = true) sep ->
  Forall (Forall (fun c => printable c = true)) chunks ->
  Forall (fun c => printable c = true) (join sep chunks).
Proof.
  intros Hsep. induction 1 as [|c cs Hc Hcs IH]; [constructor|].
  cbn [join]. destruct cs as [|c' cs]; [done|].
  apply Forall_app; split; [done|]. apply Forall_app; split; [done | exact IH].
Qed.

Lemma encode_block_printable (opening closing : pystr) (level : nat)
    (items : list pystr) :
  Forall (fun c => printable c = true) opening ->
  Forall (fun c => printable c = true) closing ->
  Forall (Forall (fun c => printable c = true)) items ->
  Forall (fun c => printable c = true) (encode_block opening closing level items).
Proof.
  intros Ho Hc Hi. unfold encode_block. destruct items as [|i items].
  - by apply Forall_app.
  - repeat (apply Forall_app; split); try done; try apply newline_indent_printable.
    apply join_printable; [|done].
    apply Forall_app; split; [by apply printable_forallb | apply newline_indent_printable].
Qed.

(** X19. An artifact is plain ASCII text.  If [float.__repr__] yields
    printable ASCII, every character that the encoder produces for any
    value at any depth is printable ASCII or a line feed; every other
    character of a string, control characters included, is escaped.
    So is every character of the file a successful [save_json]
    leaves. *)
Theorem json_encode_printable (E : env) :
  (forall f, Forall (fun c => printable c = true) (float_repr E f)) ->
  (forall v level, Forall (fun c => printable c = true) (json_encode E level v)) /\
  (forall app_id payload w text,
      files (save_json E app_id payload w).2 !! file_path_of app_id = Some text ->
      open_error E (file_path_of app_id) = None ->
      Forall (fun c => printable c = true) text).
Proof.
  intros Hfloat.
  assert (forall v level, Forall (fun c => printable c = true) (json_encode E level v))
    as Henc.
  { induction v as [| b | z | f | s | l IHl | d IHd] using pyval_nested_ind;
      intros level; cbn [json_encode].
    - by apply printable_forallb.
    - destruct b; by apply printable_forallb.
    - apply int_repr_printable.
    - unfold encode_float.
      repeat match goal with
             | |- context [if ?b then _ else _] =>
                 destruct b; [by apply printable_forallb|]
             end.
      apply Hfloat.
    - apply encode_str_printable.
    - apply encode_block_printable; [by apply printable_forallb..|].
      induction IHl as [|x l Hx _ IH]; constructor; [apply Hx | exact IH].
    - apply encode_block_printable; [by apply printable_forallb..|].
      induction IHd as [|[k x] d Hx _ IH]; constructor; [|exact IH].
      apply Forall_app; split; [apply encode_str_printable|].
      apply Forall_app; split; [by apply printable_forallb | apply Hx]. }
  split; [exact Henc|].
  intros app_id payload w text Hfile Ho.
  unfold save_json in Hfile. revert Hfile. run_M. rewrite Ho.
  cbn [snd files]. rewrite lookup_insert_eq. intros [= <-]. apply Henc.
Qed.

Lemma json_encode_printable_witness :
  Forall (fun c => printable c = true)
    (json_encode two_products 0 (PStr [233%N; 10%N; 128512%N])).
Proof.
  apply (proj1 (json_encode_printable two_products ltac:(intros; constructor))).
Defined.

(** X20. The file name tells the identifier: two URLs that are both
    processed down to a written file write the same file exactly when
    the same identifier is extracted from them. *)
Theorem output_files_by_identifier (E : env) (u1 u2 p1 t1 p2 t2 : pystr) :
  written E (PStr u1) = Some (p1, t1) ->
  written E (PStr u2) = Some (p2, t2) ->
  p1 = p2 <-> extract_app_id (PStr u1) = extract_app_id (PStr u2).
Proof.
  intros (id1 & pl1 & [Hx1 _]%prepared_Return & _ & _ & -> & _)%written_path
         (id2 & pl2 & [Hx2 _]%prepared_Return & _ & _ & -> & _)%written_path.
  rewrite Hx1, Hx2. split.
  - by intros ->%file_path_of_inj.
  - by intros [= ->].
Qed.

Lemma output_files_by_identifier_witness :
  file_path_of (str "1") = file_path_of (str "1") <->
  extract_app_id (PStr (str "http://s/app/1"))
  = extract_app_id (PStr (str "https://store.steampowered.com/app/1/One/?l=de")).
Proof.
  exact (output_files_by_identifier two_products
           (str "http://s/app/1") (str "https://store.steampowered.com/app/1/One/?l=de")
           _ _ _ _ eq_refl eq_refl).
Defined.
